(** * CKTextKitRendererCache: the renderer cache facade of ComponentTextKit

    A shallow embedding of [CKTextKitRendererCache.h]: the cache key with its
    ordered equality and its hasher, the application observer that registers
    the low-memory and backgrounding callbacks, and the [Cache] facade that
    forwards to [CK::ConcurrentCacheImpl]. *)

From Stdlib Require Import ZArith NArith QArith Lia Bool String.
From stdpp Require Import base option list sorting gmap.

Set Default Proof Using "Type".
Local Open Scope Z_scope.

(** ** Types that come from the platform headers

    [CGSize] and [CGSizeEqualToSize] belong to CoreGraphics and
    [CKTextKitAttributes] with its [operator==] to [CKTextKitAttributes.h];
    the header under study only uses them through these two comparisons. *)

Class CoreGraphics := {
  CGSize : Type;
  CGSizeEqualToSize : CGSize -> CGSize -> bool;
}.

Class TextKitAttributes := {
  CKTextKitAttributes : Type;
  CKTextKitAttributes_eq : CKTextKitAttributes -> CKTextKitAttributes -> bool;
}.

(** [UIUserInterfaceStyle] is an [NSInteger] enumeration. *)
Definition UIUserInterfaceStyle := Z.
Definition UIUserInterfaceStyleUnspecified : UIUserInterfaceStyle := 0.
Definition UIUserInterfaceStyleLight : UIUserInterfaceStyle := 1.
Definition UIUserInterfaceStyleDark : UIUserInterfaceStyle := 2.

(** ** The engine interface and the programs that call it

    [CK::ConcurrentCacheImpl<KeyT, ValueT, HasherT>] is declared in
    [CKCacheImpl.h]. The facade only needs its constructor and four member
    functions, so they form an interface; an operation either completes or
    stops the caller on a contract violation. A [double] is a rational. *)

Inductive outcome (A : Type) : Type :=
| Done (a : A)
| ContractViolation.
Arguments Done {A} a.
Arguments ContractViolation {A}.

Module CK.

Class ConcurrentCacheImpl (KeyT ValueT : Type) := {
    impl : Type;
    impl_create : string -> N -> Q -> impl;
    impl_insert : KeyT -> ValueT -> Z -> impl -> outcome (unit * impl);
    impl_find : KeyT -> impl -> outcome (option ValueT * impl);
    impl_compact : Q -> impl -> outcome (unit * impl);
    impl_removeAllObjects : impl -> outcome (unit * impl);
  }.

  (** One call on the engine member [cache]. *)
Inductive ImplCall (KeyT ValueT : Type) : Type :=
  | CallInsert (key : KeyT) (object : ValueT) (cost : Z)
  | CallFind (key : KeyT)
  | CallCompact (compactionFactor : Q)
  | CallRemoveAllObjects.
Arguments CallInsert {KeyT ValueT} key object cost.
Arguments CallFind {KeyT ValueT} key.
Arguments CallCompact {KeyT ValueT} compactionFactor.
Arguments CallRemoveAllObjects {KeyT ValueT}.

Definition response {KeyT ValueT} (c : ImplCall KeyT ValueT) : Type :=
    match c with
    | CallFind _ => option ValueT
    | _ => unit
    end.

  (** A member-function body: the engine calls it makes, then its result. *)
Inductive Method (KeyT ValueT R : Type) : Type :=
  | Return (r : R)
  | Invoke (c : ImplCall KeyT ValueT) (k : response c -> Method KeyT ValueT R).
Arguments Return {KeyT ValueT R} r.
Arguments Invoke {KeyT ValueT R} c k.

Section Exec.
Context {KeyT ValueT : Type} `{E : ConcurrentCacheImpl KeyT ValueT}.

Definition perform (c : ImplCall KeyT ValueT) (s : impl)
      : outcome (response c * impl) :=
      match c with
      | CallInsert key object cost => impl_insert key object cost s
      | CallFind key => impl_find key s
      | CallCompact f => impl_compact f s
      | CallRemoveAllObjects => impl_removeAllObjects s
      end.

    (** Runs a body on the engine; the list is the calls made, in order. *)
Fixpoint exec {R} (m : Method KeyT ValueT R) (s : impl)
      : list (ImplCall KeyT ValueT) * outcome (R * impl) :=
      match m with
      | Return r => ([], Done (r, s))
      | Invoke c k =>
          match perform c s with
          | Done (x, s') =>
              let '(calls, o) := exec (k x) s' in (c :: calls, o)
          | ContractViolation => ([c], ContractViolation)
          end
      end.
End Exec.

End CK.

(** ** Short-circuit evaluation

    A C++ condition is evaluated for its value and for the operand
    comparisons it really performs, in the order it performs them. *)

Module ShortCircuit.

Definition Traced (P : Type) : Type := (list P * bool)%type.

Definition probe {P} (p : P) (b : bool) : Traced P := ([p], b).

  (** [a && b]: [b] is evaluated only when [a] is true. *)
Definition and_then {P} (a : Traced P) (b : unit -> Traced P) : Traced P :=
    if a.2 then (a.1 ++ (b tt).1, (b tt).2) else (a.1, false).

End ShortCircuit.

(** ** Notifications and the application observer (namespace [CK::TextKit]) *)

Module TextKit.

(** An address of an object. *)
Definition ptr := positive.

Inductive NotificationName :=
| UIApplicationDidReceiveMemoryWarningNotification
| UIApplicationDidEnterBackgroundNotification.

(** The two callbacks the header declares. *)
Inductive CFNotificationCallback :=
| lowMemoryNotificationHandler
| enteredBackgroundNotificationHandler.

#[global] Instance NotificationName_eq_dec : EqDecision NotificationName.
Proof. solve_decision. Defined.

#[global] Instance CFNotificationCallback_eq_dec : EqDecision CFNotificationCallback.
Proof. solve_decision. Defined.

(** One entry of the local notification center: who observes, which callback
    is called, for which notification. *)
Record Registration := mkRegistration {
  reg_observer : ptr;
  reg_callBack : CFNotificationCallback;
  reg_name : NotificationName;
}.

#[global] Instance Registration_eq_dec : EqDecision Registration.
Proof. solve_decision. Defined.

Definition CFNotificationCenter := list Registration.

(** [CFNotificationCenterAddObserver(center, observer, callBack, name, NULL, _)]. *)
Definition CFNotificationCenterAddObserver
    (center : CFNotificationCenter) (observer : ptr)
    (callBack : CFNotificationCallback) (name : NotificationName)
  : CFNotificationCenter :=
  center ++ [mkRegistration observer callBack name].

(** [CFNotificationCenterRemoveObserver(center, observer, name, NULL)]. *)
Definition CFNotificationCenterRemoveObserver
    (center : CFNotificationCenter) (observer : ptr) (name : NotificationName)
  : CFNotificationCenter :=
  filter (fun r => ~ (reg_observer r = observer /\ reg_name r = name)) center.

(** [struct ApplicationObserver]; a [std::function] may be empty. *)
Record ApplicationObserver (F : Type) := mkApplicationObserver {
  onLowMemory : option F;
  onEnterBackground : option F;
}.
Arguments mkApplicationObserver {F} onLowMemory onEnterBackground.
Arguments onLowMemory {F} a.
Arguments onEnterBackground {F} a.

(** The state the header acts on: the local notification center, the live
    [ApplicationObserver] objects and the live objects of the owning type. *)
Record Process (F C : Type) := mkProcess {
  localCenter : CFNotificationCenter;
  observers : gmap ptr (ApplicationObserver F);
  caches : gmap ptr C;
}.
Arguments mkProcess {F C} localCenter observers caches.
Arguments localCenter {F C} p.
Arguments observers {F C} p.
Arguments caches {F C} p.

Section Observer.
Context {F C : Type}.

Definition set_center (f : CFNotificationCenter -> CFNotificationCenter)
    (w : Process F C) : Process F C :=
  mkProcess (f (localCenter w)) (observers w) (caches w).

Definition set_observers
    (f : gmap ptr (ApplicationObserver F) -> gmap ptr (ApplicationObserver F))
    (w : Process F C) : Process F C :=
  mkProcess (localCenter w) (f (observers w)) (caches w).

Definition set_caches (f : gmap ptr C -> gmap ptr C)
    (w : Process F C) : Process F C :=
  mkProcess (localCenter w) (observers w) (f (caches w)).

(** [ApplicationObserver(lowMem, bg)] run on the storage at [this]: the
    member initialisers, then the two registrations. *)
Definition ApplicationObserver_ctor (this : ptr) (lowMem bg : F)
    (w : Process F C) : Process F C :=
  let w0 := set_observers
              (insert this (mkApplicationObserver (Some lowMem) (Some bg))) w in
  let w1 := set_center (fun c =>
              CFNotificationCenterAddObserver c this
                lowMemoryNotificationHandler
                UIApplicationDidReceiveMemoryWarningNotification) w0 in
  set_center (fun c =>
    CFNotificationCenterAddObserver c this
      enteredBackgroundNotificationHandler
      UIApplicationDidEnterBackgroundNotification) w1.

(** [ApplicationObserver()], the second constructor of the struct: both
    members start empty, and its body removes the two registrations. *)
Definition ApplicationObserver_ctor0 (this : ptr)
    (w : Process F C) : Process F C :=
  let w0 := set_observers (insert this (mkApplicationObserver None None)) w in
  let w1 := set_center (fun c =>
              CFNotificationCenterRemoveObserver c this
                UIApplicationDidReceiveMemoryWarningNotification) w0 in
  set_center (fun c =>
    CFNotificationCenterRemoveObserver c this
      UIApplicationDidEnterBackgroundNotification) w1.

(** The struct declares no destructor, so the compiler's is used: it
    destroys the two members and does nothing else. *)
Definition ApplicationObserver_dtor (this : ptr)
    (w : Process F C) : Process F C :=
  w.

(** [new ApplicationObserver(lowMem, bg)]. *)
Definition new_ApplicationObserver (lowMem bg : F) (w : Process F C)
  : ptr * Process F C :=
  let this := fresh (dom (observers w)) in
  (this, ApplicationObserver_ctor this lowMem bg w).

(** [delete p]: the destructor, then the storage is released. *)
Definition delete_ApplicationObserver (p : ptr) (w : Process F C)
  : Process F C :=
  set_observers (delete p) (ApplicationObserver_dtor p w).

(** Modelled from the spec: the bodies of [lowMemoryNotificationHandler] and
    [enteredBackgroundNotificationHandler] are not in the header. They are
    "wrapper functions for CFNotificationCenter to call into the cache":
    each takes its [observer] argument as the [ApplicationObserver] and
    selects the hook of its notification. *)
Definition hook_of (callBack : CFNotificationCallback)
    (o : ApplicationObserver F) : option F :=
  match callBack with
  | lowMemoryNotificationHandler => onLowMemory o
  | enteredBackgroundNotificationHandler => onEnterBackground o
  end.

(** A registration whose observer is no longer a live object. *)
Definition dangling (w : Process F C) (r : Registration) : Prop :=
  r ∈ localCenter w /\ observers w !! reg_observer r = None.

End Observer.

End TextKit.

(** ** The cache key and the cache facade (namespace [CK::TextKit::Renderer]) *)

Module Renderer.

Import ShortCircuit TextKit.

(** The operand comparisons of [Key::operator==]. *)
Inductive Comparison :=
| CmpHash
| CmpConstrainedSize
| CmpAttributes
| CmpUserInterfaceStyle.

(** The order in which the source lists the operands. *)
Definition written_order : list Comparison :=
  [CmpHash; CmpConstrainedSize; CmpAttributes; CmpUserInterfaceStyle].

Section WithPlatform.
Context `{CoreGraphics} `{TextKitAttributes}.

Record Key := mkKey {
  userInterfaceStyle : UIUserInterfaceStyle;
  attributes : CKTextKitAttributes;
  constrainedSize : CGSize;
  hash : N;
}.

(** The value of one operand of [operator==]. *)
Definition compare (c : Comparison) (k other : Key) : bool :=
  match c with
  | CmpHash => (hash k =? hash other)%N
  | CmpConstrainedSize =>
      CGSizeEqualToSize (constrainedSize k) (constrainedSize other)
  | CmpAttributes =>
      CKTextKitAttributes_eq (attributes k) (attributes other)
  | CmpUserInterfaceStyle =>
      (userInterfaceStyle k =? userInterfaceStyle other)%Z
  end.

(** [Key::operator==], the chain [((a && b) && c) && d] as written. *)
Definition Key_eq_traced (k other : Key) : Traced Comparison :=
  and_then
    (and_then
       (and_then
          (probe CmpHash (hash k =? hash other)%N)
          (fun _ => probe CmpConstrainedSize
             (CGSizeEqualToSize (constrainedSize k) (constrainedSize other))))
       (fun _ => probe CmpAttributes
          (CKTextKitAttributes_eq (attributes k) (attributes other))))
    (fun _ => probe CmpUserInterfaceStyle
       (userInterfaceStyle k =? userInterfaceStyle other)%Z).

Definition Key_eq (k other : Key) : bool := (Key_eq_traced k other).2.

Definition Key_eq_comparisons (k other : Key) : list Comparison :=
  (Key_eq_traced k other).1.

(** [KeyHasher::operator()]. *)
Definition KeyHasher (k : Key) : N := hash k.

Section WithEngine.
Context {Obj : Type} `{E : CK.ConcurrentCacheImpl Key Obj}.

(** [struct Cache]: the engine and the pointer to its observer. *)
Record Cache := mkCache {
  cache : CK.impl;
  applicationObserver : ptr;
}.

Definition Body (R : Type) : Type := CK.Method Key Obj R.

(** [void cacheObject(const Key &key, id object, size_t cost)]. *)
Definition cacheObject (key : Key) (object : Obj) (cost : N) : Body unit :=
  CK.Invoke (CK.CallInsert key object (Z.of_N cost)) (fun _ => CK.Return tt).

(** [id objectForKey(const Key &key)]. *)
Definition objectForKey (key : Key) : Body (option Obj) :=
  CK.Invoke (CK.CallFind key) (fun found => CK.Return found).

(** [void compact(double compactionFactor)]. *)
Definition compact (compactionFactor : Q) : Body unit :=
  CK.Invoke (CK.CallCompact compactionFactor) (fun _ => CK.Return tt).

(** [void removeAllObjects()]. *)
Definition removeAllObjects : Body unit :=
  CK.Invoke CK.CallRemoveAllObjects (fun _ => CK.Return tt).

(** The [Cache] object once its engine member has answered a call. *)
Definition with_engine {R} (c : Cache) (o : outcome (R * CK.impl))
  : outcome (R * Cache) :=
  match o with
  | Done (r, s) => Done (r, mkCache s (applicationObserver c))
  | ContractViolation => ContractViolation
  end.

(** Runs a member function on a [Cache] object. *)
Definition call {R} (m : Body R) (c : Cache)
  : list (CK.ImplCall Key Obj) * outcome (R * Cache) :=
  let '(calls, o) := CK.exec m (cache c) in (calls, with_engine c o).

(** A lambda [[this] { ... }]: the captured [Cache] and the body. *)
Record Closure := mkClosure {
  captured_this : ptr;
  body : Body unit;
}.

Definition World : Type := Process Closure Cache.

(** [Cache(cacheName, maxCost, compactionFactor)] run on the storage at
    [this]: the engine member is initialised, then the observer is created
    with the two lambdas. *)
Definition Cache_ctor (this : ptr) (cacheName : string) (maxCost : N)
    (compactionFactor : Q) (w : World) : World :=
  let engine := CK.impl_create cacheName maxCost compactionFactor in
  let '(p, w') :=
    new_ApplicationObserver
      (mkClosure this (compact (95 # 100)))
      (mkClosure this removeAllObjects) w in
  set_caches (insert this (mkCache engine p)) w'.

(** [~Cache()]: [delete applicationObserver], then the object is gone.
    [None] when there is no [Cache] at [this]. *)
Definition Cache_dtor (this : ptr) (w : World) : option World :=
  match caches w !! this with
  | Some c =>
      Some (set_caches (delete this)
              (delete_ApplicationObserver (applicationObserver c) w))
  | None => None
  end.

(** Calls a stored lambda. [None] when the captured [Cache] is not alive. *)
Definition invoke (f : Closure) (w : World)
  : option (list (CK.ImplCall Key Obj) * outcome World) :=
  match caches w !! captured_this f with
  | Some c =>
      let '(calls, o) := call (body f) c in
      Some (calls,
            match o with
            | Done (_, c') => Done (set_caches (insert (captured_this f) c') w)
            | ContractViolation => ContractViolation
            end)
  | None => None
  end.

(** [observer->onLowMemory()] or [observer->onEnterBackground()], by the
    member [hook] selects. [None] when [observer] is not a live
    [ApplicationObserver], or the hook is empty, or its captured [Cache] is
    not alive. *)
Definition fire (hook : ApplicationObserver Closure -> option Closure)
    (observer : ptr) (w : World)
  : option (list (CK.ImplCall Key Obj) * outcome World) :=
  match observers w !! observer with
  | Some o =>
      match hook o with
      | Some f => invoke f w
      | None => None
      end
  | None => None
  end.

(** Modelled from the spec: the handler bodies are not in the header; a
    handler called with [observer] runs the hook [hook_of] selects. *)
Definition handler (callBack : CFNotificationCallback) (observer : ptr)
    (w : World) : option (list (CK.ImplCall Key Obj) * outcome World) :=
  fire (hook_of callBack) observer w.

(** The observer a [Cache] at [this] creates. *)
Definition Cache_observer (this : ptr) : ApplicationObserver Closure :=
  mkApplicationObserver
    (Some (mkClosure this (compact (95 # 100))))
    (Some (mkClosure this removeAllObjects)).

(** A constructed, not yet destroyed [Cache] at [this]. *)
Definition alive (this : ptr) (c : Cache) (w : World) : Prop :=
  caches w !! this = Some c /\
  observers w !! applicationObserver c = Some (Cache_observer this).

End WithEngine.
End WithPlatform.

End Renderer.

(** ** The engine behind the facade

    [CKCacheImpl.h] is not among the sources at hand; the engine is written
    here from its contract. The store keeps its entries in recency order,
    least recently used first. *)

Module CacheImpl.

Section Engine.
Context {KeyT ValueT : Type}.
Context (key_equal : KeyT -> KeyT -> bool) (hasher : KeyT -> N).

(** Modelled from the spec: [CKCacheImpl.h] is missing. "Entry: one cached
    item: key, payload, cost, recency marker"; [entry_inserted] records the
    insertion order, which the eviction order uses to break ties. *)
Record Entry := mkEntry {
  entry_key : KeyT;
  entry_payload : ValueT;
  entry_cost : Z;
  entry_recency : nat;
  entry_inserted : nat;
}.

(** Modelled from the spec: [CKCacheImpl.h] is missing. "CacheStore:
    hash-indexed mapping from key to Entry plus a recency-ordered structure
    for eviction order", "created once with fixed maxCost and
    compactionFactor", with the running total of the costs and the logical
    clock that issues recency tokens. *)
Record CacheStore := mkStore {
  name : string;
  maxCost : Z;
  compactionFactor : Q;
  entries : list Entry;
  totalCost : Z;
  clock : nat;
}.

(** Modelled from the spec: [CKCacheImpl.h] is missing. Construction
    parameters "maxCost", "compactionFactor" and "an optional
    cache-name/label used only for diagnostics". *)
Definition create (cacheName : string) (max : N) (factor : Q) : CacheStore :=
  mkStore cacheName (Z.of_N max) factor [] 0 0%nat.

(** Modelled from the spec: [CKCacheImpl.h] is missing. The hash index finds
    an entry by the hash of the key, then by key equality. *)
Definition matches (key : KeyT) (e : Entry) : bool :=
  (hasher (entry_key e) =? hasher key)%N && key_equal (entry_key e) key.

(** Modelled from the spec: [CKCacheImpl.h] is missing. Takes the entry of
    [key] out of the recency order, if there is one. *)
Fixpoint detach (key : KeyT) (l : list Entry) : option Entry * list Entry :=
  match l with
  | [] => (None, [])
  | e :: rest =>
      if matches key e then (Some e, rest)
      else let '(found, rest') := detach key rest in (found, e :: rest')
  end.

(** Modelled from the spec: [CKCacheImpl.h] is missing. The threshold test
    "total cost <= maxCost * factor". *)
Definition within_target (total max : Z) (factor : Q) : bool :=
  Qle_bool (inject_Z total) (inject_Z max * factor).

(** Modelled from the spec: [CKCacheImpl.h] is missing. "Eviction ...
    repeatedly removes the current least-recently-used entry and subtracts
    its cost from the running total until the target threshold is met"; it
    also stops when no more than [floor] entries are left. *)
Fixpoint evict (floor : nat) (max : Z) (factor : Q)
    (l : list Entry) (total : Z) : list Entry * Z :=
  match l with
  | [] => ([], total)
  | e :: rest =>
      if within_target total max factor || (length l <=? floor)%nat
      then (l, total)
      else evict floor max factor rest (total - entry_cost e)
  end.

(** Modelled from the spec: [CKCacheImpl.h] is missing. "insert(key, payload,
    cost)": "Preconditions: cost >= 0"; "inserts or replaces the Entry for
    key; updates total cost; if total cost now exceeds maxCost, triggers an
    eviction pass that removes least-recently-used entries until total cost
    is at or below maxCost * compactionFactor or until only the just-inserted
    entry remains"; "Replacing an existing key frees the old payload's cost
    accounting and adopts the new cost and recency". A precondition violation
    fails fast. *)
Definition insert (key : KeyT) (payload : ValueT) (cost : Z) (s : CacheStore)
  : outcome (unit * CacheStore) :=
  if cost <? 0 then ContractViolation
  else
    let now := S (clock s) in
    let '(old, rest) := detach key (entries s) in
    let freed := match old with Some e => entry_cost e | None => 0 end in
    let l := rest ++ [mkEntry key payload cost now now] in
    let total := totalCost s - freed + cost in
    let '(l', total') :=
      if maxCost s <? total
      then evict 1 (maxCost s) (compactionFactor s) l total
      else (l, total) in
    Done (tt, mkStore (name s) (maxCost s) (compactionFactor s) l' total' now).

(** Modelled from the spec: [CKCacheImpl.h] is missing. "find(key)": "On hit:
    updates recency token to most recent, returns payload. On miss: returns
    empty, no side effects". *)
Definition find (key : KeyT) (s : CacheStore)
  : outcome (option ValueT * CacheStore) :=
  match detach key (entries s) with
  | (Some e, rest) =>
      let now := S (clock s) in
      let touched :=
        mkEntry (entry_key e) (entry_payload e) (entry_cost e) now
                (entry_inserted e) in
      Done (Some (entry_payload e),
            mkStore (name s) (maxCost s) (compactionFactor s)
                    (rest ++ [touched]) (totalCost s) now)
  | (None, _) => Done (None, s)
  end.

(** Modelled from the spec: [CKCacheImpl.h] is missing. A compaction factor
    is valid when it lies in (0,1]. *)
Definition valid_factor (factor : Q) : bool :=
  negb (Qle_bool factor 0) && Qle_bool factor 1.

(** Modelled from the spec: [CKCacheImpl.h] is missing. "compact(factor)":
    "Evicts least-recently-used entries until total cost <= maxCost *
    factor"; a factor outside (0,1] is a precondition violation and fails
    fast. *)
Definition compact (factor : Q) (s : CacheStore)
  : outcome (unit * CacheStore) :=
  if valid_factor factor then
    let '(l, total) := evict 0 (maxCost s) factor (entries s) (totalCost s) in
    Done (tt, mkStore (name s) (maxCost s) (compactionFactor s) l total
                      (clock s))
  else ContractViolation.

(** Modelled from the spec: [CKCacheImpl.h] is missing. "removeAllObjects()":
    "Drops every Entry, resets total cost to zero". *)
Definition removeAllObjects (s : CacheStore) : outcome (unit * CacheStore) :=
  Done (tt, mkStore (name s) (maxCost s) (compactionFactor s) [] 0 (clock s)).

(** Modelled from the spec: [CKCacheImpl.h] is missing. The engine as an
    implementation of the interface the facade is written against. *)
Definition engine : CK.ConcurrentCacheImpl KeyT ValueT :=
  {| CK.impl := CacheStore;
     CK.impl_create := create;
     CK.impl_insert := insert;
     CK.impl_find := find;
     CK.impl_compact := compact;
     CK.impl_removeAllObjects := removeAllObjects |}.

(** The sum of the costs of a list of entries. *)
Definition sum_costs (l : list Entry) : Z :=
  foldr (fun e acc => entry_cost e + acc) 0 l.

(** Eviction order: older recency token first, then earlier insertion. *)
Definition evicted_before (a b : Entry) : Prop :=
  (entry_recency a < entry_recency b)%nat \/
  (entry_recency a = entry_recency b /\
   (entry_inserted a < entry_inserted b)%nat).

(** Entries in strictly increasing order of their recency tokens. *)
Definition older (a b : Entry) : Prop :=
  (entry_recency a < entry_recency b)%nat.

(** The recency order of a store: tokens increase strictly along the
    entries and none is ahead of the clock. *)
Definition recency_ordered (s : CacheStore) : Prop :=
  StronglySorted older (entries s) /\
  Forall (fun e => (entry_recency e <= clock s)%nat) (entries s).

(** The running total is the sum of the costs of the entries. *)
Definition accounted (s : CacheStore) : Prop :=
  sum_costs (entries s) = totalCost s.

(** The cost bound, with its exception for an entry stored alone. *)
Definition within_budget (s : CacheStore) : Prop :=
  length (entries s) <> 1%nat -> sum_costs (entries s) <= maxCost s.

(** What every reachable store satisfies: the configuration is a valid one
    and the three properties above hold. *)
Definition sound (s : CacheStore) : Prop :=
  0 <= maxCost s /\
  (0 < compactionFactor s)%Q /\ (compactionFactor s <= 1)%Q /\
  accounted s /\ recency_ordered s /\ within_budget s.

(** The cost an insert frees when it replaces an entry. *)
Definition freed (old : option Entry) : Z :=
  match old with Some e => entry_cost e | None => 0 end.

End Engine.

End CacheImpl.

(** ** The facade over the engine, and sequences of its operations *)

Module Usage.

Import TextKit Renderer.

Section Ops.
Context `{CoreGraphics} `{TextKitAttributes} {Obj : Type}.

(** [CK::ConcurrentCacheImpl<const Key, id, KeyHasher>]. *)
Definition RendererEngine : CK.ConcurrentCacheImpl Key Obj :=
  CacheImpl.engine Key_eq KeyHasher.

Definition RendererCache : Type := @Cache _ _ Obj RendererEngine.

(** The facade with its engine member replaced. *)
Definition with_store (c : RendererCache)
    (s : @CacheImpl.CacheStore Key Obj) : RendererCache :=
  @mkCache _ _ Obj RendererEngine s (applicationObserver c).

(** One call of a public operation of the facade. *)
Inductive Op :=
| OpCacheObject (key : Key) (object : Obj) (cost : N)
| OpObjectForKey (key : Key)
| OpCompact (compactionFactor : Q)
| OpRemoveAllObjects.

(** The state a member function leaves, its result dropped. *)
Definition after {R} (m : @Body _ _ Obj R) (c : RendererCache)
  : outcome RendererCache :=
  match (call m c).2 with
  | Done (_, c') => Done c'
  | ContractViolation => ContractViolation
  end.

Definition run_op (o : Op) (c : RendererCache) : outcome RendererCache :=
  match o with
  | OpCacheObject key object cost => after (cacheObject key object cost) c
  | OpObjectForKey key => after (objectForKey key) c
  | OpCompact f => after (compact f) c
  | OpRemoveAllObjects => after removeAllObjects c
  end.

Fixpoint run (ops : list Op) (c : RendererCache) : outcome RendererCache :=
  match ops with
  | [] => Done c
  | o :: ops' =>
      match run_op o c with
      | Done c' => run ops' c'
      | ContractViolation => ContractViolation
      end
  end.

(** The arguments of the call meet the preconditions of the contract; a
    [size_t] cost cannot be negative. *)
Definition valid_op (o : Op) : Prop :=
  match o with
  | OpCompact f => (0 < f /\ f <= 1)%Q
  | _ => True
  end.

(** The [Cache] a constructor call builds, with its observer at [p]. *)
Definition fresh_cache (cacheName : string) (maxCost : N)
    (compactionFactor : Q) (p : ptr) : RendererCache :=
  mkCache (CK.impl_create cacheName maxCost compactionFactor) p.

(** The keys held, least recently used first, and what they cost. *)
Definition held_keys (c : RendererCache) : list Key :=
  map CacheImpl.entry_key (CacheImpl.entries (cache c)).

Definition held_cost (c : RendererCache) : Z :=
  CacheImpl.sum_costs (CacheImpl.entries (cache c)).

(** Two keys neither of which compares equal to the other. *)
Definition distinct (k k' : Key) : Prop :=
  Key_eq k k' = false /\ Key_eq k' k = false.

(** The scenario of three inserts of cost 40 into an empty cache of maximum
    cost 100, and what it is said to leave. *)
Definition three_inserts (k1 k2 k3 : Key) (o1 o2 o3 : Obj) : list Op :=
  [OpCacheObject k1 o1 40; OpCacheObject k2 o2 40; OpCacheObject k3 o3 40].

Definition three_inserts_leave (cacheName : string) (factor : Q) (p : ptr)
    (k1 k2 k3 : Key) (o1 o2 o3 : Obj) (keys : list Key) (cost : Z) : Prop :=
  exists c,
    run (three_inserts k1 k2 k3 o1 o2 o3)
        (fresh_cache cacheName 100 factor p) = Done c /\
    held_keys c = keys /\ held_cost c = cost /\
    CacheImpl.totalCost (cache c) = cost.

End Ops.

(** A concrete platform for examples: sizes are pairs of rationals compared
    component by component, attributes are strings. *)
Definition sampleGraphics : CoreGraphics :=
  {| CGSize := (Q * Q)%type;
     CGSizeEqualToSize a b := Qeq_bool a.1 b.1 && Qeq_bool a.2 b.2 |}.

Definition sampleAttributes : TextKitAttributes :=
  {| CKTextKitAttributes := string;
     CKTextKitAttributes_eq := String.eqb |}.

Definition sampleKey (style : Z) (text : string) (w h : Q) (hash : N)
  : @Key sampleGraphics sampleAttributes :=
  @mkKey sampleGraphics sampleAttributes style text (w, h) hash.

(** Three keys that differ in their text and in their hash, an engine with
    numbers as payloads, and a process in which nothing exists yet. *)
Definition sampleK1 : @Key sampleGraphics sampleAttributes :=
  sampleKey 1 "Like" (320 # 1) (44 # 1) 11.
Definition sampleK2 : @Key sampleGraphics sampleAttributes :=
  sampleKey 1 "Share" (320 # 1) (44 # 1) 22.
Definition sampleK3 : @Key sampleGraphics sampleAttributes :=
  sampleKey 1 "Comment" (320 # 1) (44 # 1) 33.

Definition sampleEngine
  : CK.ConcurrentCacheImpl (@Key sampleGraphics sampleAttributes) nat :=
  RendererEngine.

Definition sampleWorld : @World sampleGraphics sampleAttributes nat sampleEngine :=
  mkProcess [] ∅ ∅.

Definition sampleCache (maxCost : N) (factor : Q)
  : @RendererCache sampleGraphics sampleAttributes nat :=
  fresh_cache "renderers" maxCost factor 1%positive.

End Usage.

(** ** Sequences of public calls, and repeated construction *)

Module Lifecycle.

Import TextKit Renderer Usage.

Section WithEngine.
Context `{CoreGraphics} `{TextKitAttributes} {Obj : Type}.
Context `{E : CK.ConcurrentCacheImpl Key Obj}.

(** The call on the engine member that a public operation is written as. *)
Definition engine_call (o : @Op _ _ Obj) : CK.ImplCall Key Obj :=
  match o with
  | OpCacheObject key object cost => CK.CallInsert key object (Z.of_N cost)
  | OpObjectForKey key => CK.CallFind key
  | OpCompact f => CK.CallCompact f
  | OpRemoveAllObjects => CK.CallRemoveAllObjects
  end.

(** The object a member function leaves, its return value dropped. *)
Definition state_of {R} (r : outcome (R * Cache)) : outcome Cache :=
  match r with
  | Done (_, c) => Done c
  | ContractViolation => ContractViolation
  end.

(** One public operation run on a [Cache] object. *)
Definition call_op (o : @Op _ _ Obj) (c : Cache)
  : list (CK.ImplCall Key Obj) * outcome Cache :=
  match o with
  | OpCacheObject key object cost =>
      let '(calls, r) := call (cacheObject key object cost) c in
      (calls, state_of r)
  | OpObjectForKey key =>
      let '(calls, r) := call (objectForKey key) c in (calls, state_of r)
  | OpCompact f =>
      let '(calls, r) := call (compact f) c in (calls, state_of r)
  | OpRemoveAllObjects =>
      let '(calls, r) := call removeAllObjects c in (calls, state_of r)
  end.

(** Public operations run one after the other; a contract violation stops
    the caller. The list is every engine call made, in order. *)
Fixpoint call_all (ops : list (@Op _ _ Obj)) (c : Cache)
  : list (CK.ImplCall Key Obj) * outcome Cache :=
  match ops with
  | [] => ([], Done c)
  | o :: ops' =>
      match call_op o c with
      | (calls, Done c') =>
          let '(more, r) := call_all ops' c' in (calls ++ more, r)
      | (calls, ContractViolation) => (calls, ContractViolation)
      end
  end.

(** Engine calls made directly on an engine, one after the other. *)
Fixpoint perform_all (cs : list (CK.ImplCall Key Obj)) (s : CK.impl)
  : list (CK.ImplCall Key Obj) * outcome CK.impl :=
  match cs with
  | [] => ([], Done s)
  | c :: cs' =>
      match CK.perform c s with
      | Done (_, s') =>
          let '(more, r) := perform_all cs' s' in (c :: more, r)
      | ContractViolation => ([c], ContractViolation)
      end
  end.

(** A [Cache] constructed at [this] and destroyed again, [n] times over. *)
Fixpoint churn (n : nat) (this : ptr) (cacheName : string) (maxCost : N)
    (compactionFactor : Q) (w : World) : option World :=
  match n with
  | O => Some w
  | S n' =>
      match Cache_dtor this
              (Cache_ctor this cacheName maxCost compactionFactor w) with
      | Some w' => churn n' this cacheName maxCost compactionFactor w'
      | None => None
      end
  end.

(** The two registrations the constructor of an observer at [p] makes. *)
Definition registrations_of (p : ptr) : list Registration :=
  [mkRegistration p lowMemoryNotificationHandler
     UIApplicationDidReceiveMemoryWarningNotification;
   mkRegistration p enteredBackgroundNotificationHandler
     UIApplicationDidEnterBackgroundNotification].

(** The hook stored for low memory, or the one stored for backgrounding,
    and the engine call its lambda is written as. *)
Definition hook_member (low : bool)
  : ApplicationObserver (@Closure _ _ Obj) -> option (@Closure _ _ Obj) :=
  if low then onLowMemory else onEnterBackground.

Definition hook_call (low : bool) : CK.ImplCall Key Obj :=
  if low then CK.CallCompact (95 # 100) else CK.CallRemoveAllObjects.

End WithEngine.

(** A process with two live [Cache] objects, at 7 and at 8, whose observers
    are at 1 and at 2. *)
Definition sampleCacheAt (p : ptr)
  : @Cache sampleGraphics sampleAttributes nat sampleEngine :=
  mkCache (CK.impl_create "renderers" 100 1) p.

Definition twoCaches
  : @World sampleGraphics sampleAttributes nat sampleEngine :=
  mkProcess
    (registrations_of 1%positive ++ registrations_of 2%positive)
    (<[1%positive := Cache_observer 7%positive]>
       (<[2%positive := Cache_observer 8%positive]> ∅))
    (<[7%positive := sampleCacheAt 1%positive]>
       (<[8%positive := sampleCacheAt 2%positive]> ∅)).

End Lifecycle.

(** * Properties *)

Import TextKit Renderer Usage.

(** ** The key: equality and hashing *)

Section KeyFacts.
Context `{CoreGraphics} `{TextKitAttributes}.

Lemma Key_eq_unfold (k other : Key) :
  Key_eq k other =
    compare CmpHash k other && compare CmpConstrainedSize k other
    && compare CmpAttributes k other && compare CmpUserInterfaceStyle k other.
Proof.
  unfold Key_eq, Key_eq_traced, ShortCircuit.and_then, ShortCircuit.probe.
  simpl.
  destruct (hash k =? hash other)%N; simpl; [|reflexivity].
  destruct (CGSizeEqualToSize _ _); simpl; [|reflexivity].
  destruct (CKTextKitAttributes_eq _ _); simpl; reflexivity.
Qed.

Lemma Key_eq_true (k other : Key) :
  Key_eq k other = true <->
  hash k = hash other /\
  CGSizeEqualToSize (constrainedSize k) (constrainedSize other) = true /\
  CKTextKitAttributes_eq (attributes k) (attributes other) = true /\
  userInterfaceStyle k = userInterfaceStyle other.
Proof.
  rewrite Key_eq_unfold. simpl.
  rewrite !andb_true_iff, N.eqb_eq, Z.eqb_eq. tauto.
Qed.

(** Splits the description of a trace into its two non-trivial parts. *)
Ltac prefix_case :=
  split; [lia|]; split; [reflexivity|]; split; [|split; [|congruence]].

(** C2. [k1 == k2] is true exactly when the hashes, the constrained sizes,
    the attributes and the user-interface styles compare equal, and the
    comparisons performed are a prefix of hash, size, attributes, style:
    every one before the last succeeded, the last one failed unless the
    result is true, in which case all four were made. *)
Theorem Key_eq_ordered_short_circuit (k1 k2 : Key) :
  (Key_eq k1 k2 = true <->
     hash k1 = hash k2 /\
     CGSizeEqualToSize (constrainedSize k1) (constrainedSize k2) = true /\
     CKTextKitAttributes_eq (attributes k1) (attributes k2) = true /\
     userInterfaceStyle k1 = userInterfaceStyle k2) /\
  (exists n : nat,
     (1 <= n <= 4)%nat /\
     Key_eq_comparisons k1 k2 = take n written_order /\
     (forall i c, (S i < n)%nat -> written_order !! i = Some c ->
                  compare c k1 k2 = true) /\
     (forall c, written_order !! (n - 1)%nat = Some c ->
                compare c k1 k2 = Key_eq k1 k2) /\
     (Key_eq k1 k2 = true -> n = 4%nat)).
Proof.
  split; [apply Key_eq_true|].
  rewrite Key_eq_unfold.
  unfold Key_eq_comparisons, Key_eq_traced, ShortCircuit.and_then,
    ShortCircuit.probe, written_order; simpl.
  destruct (hash k1 =? hash k2)%N eqn:Eh; simpl.
  2:{ exists 1%nat. prefix_case.
      - intros i c Hi; lia.
      - intros c [= <-]; exact Eh. }
  destruct (CGSizeEqualToSize _ _) eqn:Es; simpl.
  2:{ exists 2%nat. prefix_case.
      - intros [|i] c Hi; [intros [= <-]; exact Eh | lia].
      - intros c [= <-]; exact Es. }
  destruct (CKTextKitAttributes_eq _ _) eqn:Ea; simpl.
  2:{ exists 3%nat. prefix_case.
      - intros [|[|i]] c Hi; [intros [= <-]; assumption .. | lia].
      - intros c [= <-]; exact Ea. }
  exists 4%nat. prefix_case.
  - intros [|[|[|i]]] c Hi; [intros [= <-]; assumption .. | lia].
  - intros c [= <-]; reflexivity.
Qed.

(** C10. For every key the hasher returns the stored hash of the key,
    without any other computation, and two keys that compare equal have the
    same hasher value. *)
Theorem KeyHasher_consistent (k k1 k2 : Key) :
  KeyHasher k = hash k /\
  (Key_eq k1 k2 = true -> KeyHasher k1 = KeyHasher k2).
Proof.
  split; [reflexivity|].
  intros Heq. apply Key_eq_true in Heq as (Hh & _).
  unfold KeyHasher. exact Hh.
Qed.

End KeyFacts.


(** ** The facade over an arbitrary engine *)

Section FacadeFacts.
Context `{CoreGraphics} `{TextKitAttributes} {Obj : Type}.
Context `{E : CK.ConcurrentCacheImpl Key Obj}.

Lemma call_compact (c : Cache) (f : Q) :
  call (compact f) c =
    ([CK.CallCompact f], with_engine c (CK.impl_compact f (cache c))).
Proof.
  unfold call; simpl.
  destruct (CK.impl_compact f (cache c)) as [[[] s]|]; reflexivity.
Qed.

Lemma call_removeAllObjects (c : Cache) :
  call removeAllObjects c =
    ([CK.CallRemoveAllObjects],
     with_engine c (CK.impl_removeAllObjects (cache c))).
Proof.
  unfold call; simpl.
  destruct (CK.impl_removeAllObjects (cache c)) as [[[] s]|]; reflexivity.
Qed.

Lemma call_cacheObject (c : Cache) key object cost :
  call (cacheObject key object cost) c =
    ([CK.CallInsert key object (Z.of_N cost)],
     with_engine c (CK.impl_insert key object (Z.of_N cost) (cache c))).
Proof.
  unfold call; simpl.
  destruct (CK.impl_insert _ _ _ (cache c)) as [[[] s]|]; reflexivity.
Qed.

Lemma call_objectForKey (c : Cache) key :
  call (objectForKey key) c =
    ([CK.CallFind key], with_engine c (CK.impl_find key (cache c))).
Proof.
  unfold call; simpl.
  destruct (CK.impl_find key (cache c)) as [[found s]|]; reflexivity.
Qed.

(** C5. Each public operation of the facade makes exactly one call, the
    engine operation of the same meaning with the same arguments. When that
    call completes, the operation completes with the value the call returned
    and the engine the call left, and the observer pointer of the facade is
    the one it had; when that call stops on a violation, so does the
    operation. In particular [objectForKey] returns exactly what the
    engine's [find] returns. *)
Theorem facade_is_pure_delegation (c : Cache) (key : Key) (object : Obj)
    (cost : N) (f : Q) :
  call (cacheObject key object cost) c =
    ([CK.CallInsert key object (Z.of_N cost)],
     match CK.impl_insert key object (Z.of_N cost) (cache c) with
     | Done (r, s) => Done (r, mkCache s (applicationObserver c))
     | ContractViolation => ContractViolation
     end) /\
  call (objectForKey key) c =
    ([CK.CallFind key],
     match CK.impl_find key (cache c) with
     | Done (found, s) => Done (found, mkCache s (applicationObserver c))
     | ContractViolation => ContractViolation
     end) /\
  call (compact f) c =
    ([CK.CallCompact f],
     match CK.impl_compact f (cache c) with
     | Done (r, s) => Done (r, mkCache s (applicationObserver c))
     | ContractViolation => ContractViolation
     end) /\
  call removeAllObjects c =
    ([CK.CallRemoveAllObjects],
     match CK.impl_removeAllObjects (cache c) with
     | Done (r, s) => Done (r, mkCache s (applicationObserver c))
     | ContractViolation => ContractViolation
     end).
Proof.
  rewrite call_cacheObject, call_objectForKey, call_compact,
    call_removeAllObjects.
  unfold with_engine.
  split; [|split; [|split]].
  - destruct (CK.impl_insert _ _ _ _) as [[r s]|]; reflexivity.
  - destruct (CK.impl_find _ _) as [[found s]|]; reflexivity.
  - destruct (CK.impl_compact _ _) as [[r s]|]; reflexivity.
  - destruct (CK.impl_removeAllObjects _) as [[r s]|]; reflexivity.
Qed.

(** *** Construction, destruction and the hooks *)

Lemma Cache_ctor_unfold (this : ptr) cacheName maxCost factor (w : World) :
  let p := fresh (dom (observers w)) in
  Cache_ctor this cacheName maxCost factor w =
    mkProcess
      (localCenter w ++
         [mkRegistration p lowMemoryNotificationHandler
            UIApplicationDidReceiveMemoryWarningNotification] ++
         [mkRegistration p enteredBackgroundNotificationHandler
            UIApplicationDidEnterBackgroundNotification])
      (<[p := Cache_observer this]> (observers w))
      (<[this := mkCache (CK.impl_create cacheName maxCost factor) p]>
         (caches w)).
Proof.
  intros p. unfold Cache_ctor, new_ApplicationObserver,
    ApplicationObserver_ctor, set_caches, set_center, set_observers,
    CFNotificationCenterAddObserver, Cache_observer; simpl.
  now rewrite <- app_assoc.
Qed.

Lemma Cache_ctor_alive (this : ptr) cacheName maxCost factor (w : World) :
  alive this
    (mkCache (CK.impl_create cacheName maxCost factor)
       (fresh (dom (observers w))))
    (Cache_ctor this cacheName maxCost factor w).
Proof.
  rewrite Cache_ctor_unfold. split; simpl; apply lookup_insert_eq.
Qed.

(** The body that removes the registrations does its work wherever it is
    run: after the constructor without arguments no registration names its
    object. On destruction it is not run. *)
Lemma ApplicationObserver_ctor0_deregisters (this : ptr) (w : World)
    (r : Registration) :
  r ∈ localCenter (ApplicationObserver_ctor0 this w) ->
  reg_observer r <> this.
Proof.
  unfold ApplicationObserver_ctor0, set_center, set_observers,
    CFNotificationCenterRemoveObserver; simpl.
  rewrite !list_elem_of_filter. intros (Hbg & Hlow & _) Hthis.
  destruct r as [o cb []]; simpl in *; [apply Hlow | apply Hbg]; auto.
Qed.

(** C1, as the code has it. Constructing a [Cache] and destroying it
    releases the observer object and leaves both of its registrations in the
    notification center: the only calls that remove them are in the
    constructor without arguments, which nothing runs, and the destructor of
    the observer is the implicit one. A handler then called for either
    registration has no live observer to act on. *)
Theorem Cache_dtor_leaves_hooks_registered (this : ptr) (cacheName : string)
    (maxCost : N) (factor : Q) (w : World) :
  let p := fresh (dom (observers w)) in
  let low := mkRegistration p lowMemoryNotificationHandler
               UIApplicationDidReceiveMemoryWarningNotification in
  let bg := mkRegistration p enteredBackgroundNotificationHandler
              UIApplicationDidEnterBackgroundNotification in
  exists w',
    Cache_dtor this (Cache_ctor this cacheName maxCost factor w) = Some w' /\
    caches w' !! this = None /\
    dangling w' low /\ dangling w' bg /\
    handler lowMemoryNotificationHandler p w' = None /\
    handler enteredBackgroundNotificationHandler p w' = None.
Proof.
  intros p low bg. rewrite Cache_ctor_unfold. fold p.
  unfold Cache_dtor; simpl. rewrite lookup_insert_eq; simpl.
  eexists; split; [reflexivity|].
  unfold delete_ApplicationObserver, ApplicationObserver_dtor, set_caches,
    set_observers, dangling, handler, fire; simpl.
  rewrite !lookup_delete_eq.
  repeat split; try reflexivity.
  - apply elem_of_app; right. apply list_elem_of_In; simpl; auto.
  - apply elem_of_app; right. apply list_elem_of_In; simpl; auto.
Qed.

(** C3. For a live [Cache], running the low-memory hook of its observer
    makes exactly one engine call, [compact] with factor 0.95, on the engine
    of that same [Cache]; the factor lies in (0,1], and nothing else in the
    process changes. *)
Theorem onLowMemory_compacts_once (this : ptr) (c : Cache) (w : World)
    (Hlive : alive this c w) :
  fire onLowMemory (applicationObserver c) w =
    Some ([CK.CallCompact (95 # 100)],
          match CK.impl_compact (95 # 100) (cache c) with
          | Done (_, s) =>
              Done (mkProcess (localCenter w) (observers w)
                      (<[this := mkCache s (applicationObserver c)]>
                         (caches w)))
          | ContractViolation => ContractViolation
          end) /\
  (0 < 95 # 100)%Q /\ (95 # 100 <= 1)%Q.
Proof.
  destruct Hlive as [Hc Ho].
  split; [|split; reflexivity || discriminate].
  unfold fire. rewrite Ho; simpl. unfold invoke; simpl. rewrite Hc.
  rewrite call_compact.
  destruct (CK.impl_compact _ _) as [[[] s]|]; reflexivity.
Qed.

End FacadeFacts.

(** ** The engine *)

Section EngineFacts.
Context {KeyT ValueT : Type}.
Context (key_equal : KeyT -> KeyT -> bool) (hasher : KeyT -> N).

Local Abbreviation Entry := (@CacheImpl.Entry KeyT ValueT).
Local Abbreviation CacheStore := (@CacheImpl.CacheStore KeyT ValueT).
Local Abbreviation sum_costs := (@CacheImpl.sum_costs KeyT ValueT).
Local Abbreviation matches := (CacheImpl.matches key_equal hasher).
Local Abbreviation detach := (CacheImpl.detach key_equal hasher).
Local Abbreviation insert := (CacheImpl.insert key_equal hasher).
Local Abbreviation find := (CacheImpl.find key_equal hasher).

Lemma sum_costs_app (l1 l2 : list Entry) :
  sum_costs (l1 ++ l2) = sum_costs l1 + sum_costs l2.
Proof.
  induction l1 as [|e l1 IH]; simpl; [reflexivity|].
  unfold CacheImpl.sum_costs in *; simpl. rewrite IH. ring.
Qed.

Lemma sum_costs_cons (e : Entry) (l : list Entry) :
  sum_costs (e :: l) = CacheImpl.entry_cost e + sum_costs l.
Proof. reflexivity. Qed.

Lemma detach_Some key (l : list Entry) e rest :
  detach key l = (Some e, rest) ->
  exists l1 l2, l = l1 ++ e :: l2 /\ rest = l1 ++ l2 /\
                matches key e = true /\
                Forall (fun x => matches key x = false) l1.
Proof.
  revert rest. induction l as [|x l IH]; simpl; intros rest Hd;
    [discriminate|].
  destruct (matches key x) eqn:Hm.
  - injection Hd as <- <-. exists [], l. auto.
  - destruct (detach key l) as [found rest'] eqn:Hl.
    injection Hd as -> <-.
    destruct (IH _ eq_refl) as (l1 & l2 & -> & -> & Hme & Hall).
    exists (x :: l1), l2. auto.
Qed.

Lemma detach_None key (l : list Entry) rest :
  detach key l = (None, rest) ->
  rest = l /\ Forall (fun x => matches key x = false) l.
Proof.
  revert rest. induction l as [|x l IH]; simpl; intros rest Hd.
  - injection Hd as <-. auto.
  - destruct (matches key x) eqn:Hm; [discriminate|].
    destruct (detach key l) as [found rest'] eqn:Hl.
    injection Hd as -> <-.
    destruct (IH _ eq_refl) as [-> Hall]. auto.
Qed.

Lemma detach_no_match key (l : list Entry) :
  Forall (fun x => matches key x = false) l -> detach key l = (None, l).
Proof.
  induction 1 as [|x l Hx Hl IH]; simpl; [reflexivity|].
  now rewrite Hx, IH.
Qed.

(** What an eviction pass does: it drops a prefix of the recency order,
    charges its cost, and stops on the threshold or on the floor. *)
Lemma evict_split floor max factor (l : list Entry) total l' total' :
  CacheImpl.evict floor max factor l total = (l', total') ->
  exists gone,
    l = gone ++ l' /\ total' = total - sum_costs gone /\
    (CacheImpl.within_target total' max factor = true \/
     (length l' <= floor)%nat).
Proof.
  revert total. induction l as [|e l IH]; intros total; simpl.
  - intros [= <- <-]. exists []. simpl.
    split; [reflexivity|]. split; [|right; lia].
    unfold CacheImpl.sum_costs; simpl; ring.
  - destruct (CacheImpl.within_target total max factor) eqn:Hw; simpl.
    + intros [= <- <-]. exists []. simpl.
      split; [reflexivity|]. split; [|left; exact Hw].
      unfold CacheImpl.sum_costs; simpl; ring.
    + destruct floor as [|floor'].
      * intros Hev. destruct (IH _ Hev) as (gone & -> & -> & Hstop).
        exists (e :: gone). split; [reflexivity|].
        split; [rewrite sum_costs_cons; ring | exact Hstop].
      * destruct (length l <=? floor')%nat eqn:Hlen.
        -- intros [= <- <-]. exists []. simpl.
           apply Nat.leb_le in Hlen.
           split; [reflexivity|]. split; [|right; simpl; lia].
           unfold CacheImpl.sum_costs; simpl; ring.
        -- intros Hev. destruct (IH _ Hev) as (gone & -> & -> & Hstop).
           exists (e :: gone). split; [reflexivity|].
           split; [rewrite sum_costs_cons; ring | exact Hstop].
Qed.

Lemma within_target_le total max factor :
  CacheImpl.within_target total max factor = true ->
  0 <= max -> (factor <= 1)%Q -> total <= max.
Proof.
  unfold CacheImpl.within_target. intros Hw Hmax Hf.
  apply Qle_bool_iff in Hw.
  rewrite Zle_Qle.
  eapply Qle_trans; [exact Hw|].
  rewrite <- (Qmult_1_r (inject_Z max)) at 2.
  rewrite !(Qmult_comm (inject_Z max)).
  apply Qmult_le_compat_r; [exact Hf|].
  change 0%Q with (inject_Z 0). now rewrite <- Zle_Qle.
Qed.

Lemma valid_factor_true factor :
  (0 < factor)%Q -> (factor <= 1)%Q -> CacheImpl.valid_factor factor = true.
Proof.
  intros Hpos Hle. unfold CacheImpl.valid_factor.
  apply andb_true_iff. split.
  - apply negb_true_iff. destruct (Qle_bool factor 0) eqn:Hb; [|reflexivity].
    apply Qle_bool_iff in Hb. exfalso. eapply Qlt_not_le; eauto.
  - now apply Qle_bool_iff.
Qed.

Lemma valid_factor_false factor :
  ((factor <= 0)%Q \/ (1 < factor)%Q) -> CacheImpl.valid_factor factor = false.
Proof.
  intros Hout. unfold CacheImpl.valid_factor.
  apply andb_false_iff. destruct Hout as [Hle | Hgt].
  - left. apply negb_false_iff. now apply Qle_bool_iff.
  - right. destruct (Qle_bool factor 1) eqn:Hb; [|reflexivity].
    apply Qle_bool_iff in Hb. exfalso. eapply Qlt_not_le; eauto.
Qed.

Lemma detach_accounts key (l : list Entry) old rest :
  detach key l = (old, rest) ->
  sum_costs l = CacheImpl.freed old + sum_costs rest /\
  (length rest <= length l)%nat.
Proof.
  destruct old as [e|]; intros Hd.
  - apply detach_Some in Hd as (l1 & l2 & -> & -> & _).
    rewrite !sum_costs_app, sum_costs_cons, !length_app; simpl. lia.
  - apply detach_None in Hd as [-> _]. simpl. lia.
Qed.

Lemma detach_ordered key (l : list Entry) old rest (n : nat) :
  detach key l = (old, rest) ->
  StronglySorted CacheImpl.older l ->
  Forall (fun e => (CacheImpl.entry_recency e <= n)%nat) l ->
  StronglySorted CacheImpl.older rest /\
  Forall (fun e => (CacheImpl.entry_recency e <= n)%nat) rest.
Proof.
  destruct old as [e|]; intros Hd.
  - apply detach_Some in Hd as (l1 & l2 & -> & -> & _).
    rewrite !StronglySorted_app, StronglySorted_cons, !Forall_app,
      Forall_cons.
    intros (Hcross & H1 & _ & H2) (Hb1 & _ & Hb2).
    repeat split; auto.
    intros x1 x2 Hx1 Hx2. apply Hcross; [exact Hx1|].
    now apply list_elem_of_further.
  - apply detach_None in Hd as [-> _]. auto.
Qed.

Lemma snoc_ordered (l : list Entry) (e : Entry) (n : nat) :
  StronglySorted CacheImpl.older l ->
  Forall (fun x => (CacheImpl.entry_recency x <= n)%nat) l ->
  CacheImpl.entry_recency e = S n ->
  StronglySorted CacheImpl.older (l ++ [e]) /\
  Forall (fun x => (CacheImpl.entry_recency x <= S n)%nat) (l ++ [e]).
Proof.
  intros Hs Hb He. split.
  - apply StronglySorted_app. split; [|split; [exact Hs|]].
    + intros x1 x2 Hx1 Hx2. apply list_elem_of_singleton in Hx2 as ->.
      unfold CacheImpl.older. rewrite He.
      rewrite Forall_forall in Hb. specialize (Hb _ Hx1). lia.
    + repeat constructor.
  - apply Forall_app. split.
    + eapply Forall_impl; [exact Hb|]. simpl; intros; lia.
    + constructor; [lia | constructor].
Qed.

(** The shape of every successful [insert]. *)
Lemma insert_Done key payload cost (s : CacheStore) :
  0 <= cost ->
  exists old rest gone kept,
    let now := S (CacheImpl.clock s) in
    let total := CacheImpl.totalCost s - CacheImpl.freed old + cost in
    detach key (CacheImpl.entries s) = (old, rest) /\
    rest ++ [CacheImpl.mkEntry key payload cost now now] = gone ++ kept /\
    insert key payload cost s =
      Done (tt, CacheImpl.mkStore (CacheImpl.name s) (CacheImpl.maxCost s)
                  (CacheImpl.compactionFactor s) kept
                  (total - sum_costs gone) now) /\
    ((gone = [] /\ total <= CacheImpl.maxCost s) \/
     (CacheImpl.maxCost s < total /\
      (CacheImpl.within_target (total - sum_costs gone) (CacheImpl.maxCost s)
         (CacheImpl.compactionFactor s) = true \/
       (length kept <= 1)%nat))).
Proof.
  intros Hcost. unfold CacheImpl.insert.
  destruct (cost <? 0) eqn:Hneg; [apply Z.ltb_lt in Hneg; lia|].
  destruct (detach key (CacheImpl.entries s)) as [old rest] eqn:Hd.
  fold (CacheImpl.freed old).
  destruct (CacheImpl.maxCost s <?
            CacheImpl.totalCost s - CacheImpl.freed old + cost) eqn:Hover.
  - destruct (CacheImpl.evict _ _ _ _ _) as [kept total'] eqn:Hev.
    destruct (evict_split _ _ _ _ _ _ _ Hev) as (gone & Hl & -> & Hstop).
    exists old, rest, gone, kept. simpl.
    apply Z.ltb_lt in Hover.
    split; [reflexivity|]. split; [exact Hl|]. split; [reflexivity|].
    right. split; assumption.
  - exists old, rest, [], (rest ++
      [CacheImpl.mkEntry key payload cost (S (CacheImpl.clock s))
         (S (CacheImpl.clock s))]). simpl.
    apply Z.ltb_ge in Hover.
    change (sum_costs []) with 0. rewrite Z.sub_0_r.
    split; [reflexivity|]. split; [reflexivity|]. split; [reflexivity|].
    left. split; [reflexivity | exact Hover].
Qed.

(** The shape of every successful [compact]. *)
Lemma compact_Done factor (s : CacheStore) :
  CacheImpl.valid_factor factor = true ->
  exists gone kept,
    CacheImpl.entries s = gone ++ kept /\
    CacheImpl.compact factor s =
      Done (tt, CacheImpl.mkStore (CacheImpl.name s) (CacheImpl.maxCost s)
                  (CacheImpl.compactionFactor s) kept
                  (CacheImpl.totalCost s - sum_costs gone)
                  (CacheImpl.clock s)) /\
    (CacheImpl.within_target (CacheImpl.totalCost s - sum_costs gone)
       (CacheImpl.maxCost s) factor = true \/ kept = []).
Proof.
  intros Hv. unfold CacheImpl.compact. rewrite Hv.
  destruct (CacheImpl.evict _ _ _ _ _) as [kept total'] eqn:Hev.
  destruct (evict_split _ _ _ _ _ _ _ Hev) as (gone & Hl & -> & Hstop).
  exists gone, kept. repeat split; auto.
  destruct Hstop as [Hw | Hlen]; [left; exact Hw | right].
  destruct kept; [reflexivity | simpl in Hlen; lia].
Qed.

(** The two outcomes of [find]. *)
Lemma find_Done key (s : CacheStore) :
  (exists e rest,
     detach key (CacheImpl.entries s) = (Some e, rest) /\
     find key s =
       Done (Some (CacheImpl.entry_payload e),
             CacheImpl.mkStore (CacheImpl.name s) (CacheImpl.maxCost s)
               (CacheImpl.compactionFactor s)
               (rest ++
                  [CacheImpl.mkEntry (CacheImpl.entry_key e)
                     (CacheImpl.entry_payload e) (CacheImpl.entry_cost e)
                     (S (CacheImpl.clock s)) (CacheImpl.entry_inserted e)])
               (CacheImpl.totalCost s) (S (CacheImpl.clock s)))) \/
  (detach key (CacheImpl.entries s) = (None, CacheImpl.entries s) /\
   find key s = Done (None, s)).
Proof.
  unfold CacheImpl.find.
  destruct (detach key (CacheImpl.entries s)) as [[e|] rest] eqn:Hd.
  - left. exists e, rest. auto.
  - right. apply detach_None in Hd as [-> _]. auto.
Qed.

(** Discharges the parts of [CacheImpl.sound] that are at hand and leaves
    the cost bound. *)
Ltac sound_parts :=
  split; [assumption|]; split; [assumption|]; split; [assumption|];
  split; [first [assumption | reflexivity]|];
  split; [split; first [assumption | constructor]|].

Lemma create_sound cacheName max factor :
  (0 < factor)%Q -> (factor <= 1)%Q ->
  CacheImpl.sound (CacheImpl.create cacheName max factor : CacheStore).
Proof.
  intros Hpos Hle. unfold CacheImpl.sound, CacheImpl.create; simpl.
  split; [lia|]. split; [exact Hpos|]. split; [exact Hle|].
  split; [reflexivity|]. split; [split; constructor|].
  intros _. unfold CacheImpl.sum_costs; simpl; lia.
Qed.

Lemma insert_sound key payload cost (s : CacheStore) :
  0 <= cost -> CacheImpl.sound s ->
  exists s', insert key payload cost s = Done (tt, s') /\
             CacheImpl.sound s' /\
             CacheImpl.maxCost s' = CacheImpl.maxCost s /\
             CacheImpl.compactionFactor s' = CacheImpl.compactionFactor s.
Proof.
  intros Hcost (Hmax & Hpos & Hle & Hacc & [Hsorted Hclock] & _).
  destruct (insert_Done key payload cost s Hcost)
    as (old & rest & gone & kept & Hd & Hl & -> & Hstop).
  eexists; split; [reflexivity|]. split; [|split; reflexivity].
  destruct (detach_accounts _ _ _ _ Hd) as [Hsum _].
  destruct (detach_ordered _ _ _ _ _ Hd Hsorted Hclock) as [Hs' Hc'].
  destruct (snoc_ordered rest
              (CacheImpl.mkEntry key payload cost (S (CacheImpl.clock s))
                 (S (CacheImpl.clock s))) _ Hs' Hc' eq_refl) as [Hs2 Hc2].
  assert (Hk : sum_costs kept =
               CacheImpl.totalCost s - CacheImpl.freed old + cost -
               sum_costs gone).
  { apply (f_equal sum_costs) in Hl. rewrite !sum_costs_app in Hl.
    change (sum_costs [_]) with (cost + 0) in Hl.
    unfold CacheImpl.accounted in Hacc. lia. }
  unfold CacheImpl.sound, CacheImpl.accounted, CacheImpl.recency_ordered,
    CacheImpl.within_budget; simpl.
  rewrite Hl in Hs2, Hc2.
  apply StronglySorted_app_1_r in Hs2. apply Forall_app in Hc2 as [_ Hc2].
  sound_parts.
  intros Hlen. rewrite Hk.
  destruct Hstop as [[-> Hfit] | [_ [Hw | Hone]]].
  - change (sum_costs []) with 0. lia.
  - eapply within_target_le; eauto.
  - destruct kept as [|e [|e' kept]]; simpl in *; lia.
Qed.

Lemma compact_sound factor (s : CacheStore) :
  (0 < factor)%Q -> (factor <= 1)%Q -> CacheImpl.sound s ->
  exists s', CacheImpl.compact factor s = Done (tt, s') /\
             CacheImpl.sound s' /\
             CacheImpl.maxCost s' = CacheImpl.maxCost s /\
             CacheImpl.compactionFactor s' = CacheImpl.compactionFactor s.
Proof.
  intros Hfpos Hfle (Hmax & Hpos & Hle & Hacc & [Hsorted Hclock] & _).
  destruct (compact_Done factor s (valid_factor_true _ Hfpos Hfle))
    as (gone & kept & Hl & -> & Hstop).
  eexists; split; [reflexivity|]. split; [|split; reflexivity].
  assert (Hk : sum_costs kept = CacheImpl.totalCost s - sum_costs gone).
  { unfold CacheImpl.accounted in Hacc. rewrite Hl, sum_costs_app in Hacc.
    lia. }
  unfold CacheImpl.sound, CacheImpl.accounted, CacheImpl.recency_ordered,
    CacheImpl.within_budget; simpl.
  rewrite Hl in Hsorted, Hclock.
  apply StronglySorted_app_1_r in Hsorted.
  apply Forall_app in Hclock as [_ Hclock].
  sound_parts.
  intros _. destruct Hstop as [Hw | ->].
  - rewrite Hk. eapply within_target_le; eauto.
  - unfold CacheImpl.sum_costs; simpl. lia.
Qed.

Lemma find_sound key (s : CacheStore) :
  CacheImpl.sound s ->
  exists found s', find key s = Done (found, s') /\
             CacheImpl.sound s' /\
             CacheImpl.maxCost s' = CacheImpl.maxCost s /\
             CacheImpl.compactionFactor s' = CacheImpl.compactionFactor s.
Proof.
  intros (Hmax & Hpos & Hle & Hacc & [Hsorted Hclock] & Hbudget).
  destruct (find_Done key s) as [(e & rest & Hd & ->) | [_ ->]].
  2:{ exists None, s. split; [reflexivity|]. split; [|split; reflexivity].
      unfold CacheImpl.sound, CacheImpl.recency_ordered. auto 10. }
  eexists _, _; split; [reflexivity|]. split; [|split; reflexivity].
  destruct (detach_ordered _ _ _ _ _ Hd Hsorted Hclock) as [Hs' Hc'].
  set (touched := CacheImpl.mkEntry _ _ _ _ _).
  destruct (snoc_ordered rest touched _ Hs' Hc' eq_refl) as [Hs2 Hc2].
  apply detach_Some in Hd as (l1 & l2 & Hl & -> & _).
  assert (Hk : sum_costs ((l1 ++ l2) ++ [touched]) =
               sum_costs (CacheImpl.entries s)).
  { rewrite Hl, !sum_costs_app, !sum_costs_cons.
    change (sum_costs []) with 0. subst touched; simpl. lia. }
  assert (Hn : length ((l1 ++ l2) ++ [touched]) =
               length (CacheImpl.entries s)).
  { rewrite Hl, !length_app; simpl. lia. }
  unfold CacheImpl.sound, CacheImpl.accounted, CacheImpl.recency_ordered,
    CacheImpl.within_budget in *; simpl.
  rewrite Hk, Hn. sound_parts. exact Hbudget.
Qed.

Lemma removeAllObjects_sound (s : CacheStore) :
  CacheImpl.sound s ->
  exists s', CacheImpl.removeAllObjects s = Done (tt, s') /\
             CacheImpl.sound s' /\
             CacheImpl.maxCost s' = CacheImpl.maxCost s /\
             CacheImpl.compactionFactor s' = CacheImpl.compactionFactor s.
Proof.
  intros (Hmax & Hpos & Hle & _).
  eexists; split; [reflexivity|]. split; [|split; reflexivity].
  unfold CacheImpl.sound, CacheImpl.accounted, CacheImpl.recency_ordered,
    CacheImpl.within_budget; simpl.
  sound_parts.
  intros _. unfold CacheImpl.sum_costs; simpl; lia.
Qed.

End EngineFacts.

(** ** The facade over the engine *)

Section RendererFacts.
Context `{CoreGraphics} `{TextKitAttributes} {Obj : Type}.

Local Abbreviation RCache := (@RendererCache _ _ Obj).
Local Abbreviation insert := (@CacheImpl.insert Key Obj Key_eq KeyHasher).
Local Abbreviation find := (@CacheImpl.find Key Obj Key_eq KeyHasher).
Local Abbreviation detach := (@CacheImpl.detach Key Obj Key_eq KeyHasher).
Local Abbreviation matches := (@CacheImpl.matches Key Obj Key_eq KeyHasher).

(** The facade state an engine answer leaves. *)
Lemma after_cacheObject (c : RCache) key object cost :
  after (cacheObject key object cost) c =
    match insert key object (Z.of_N cost) (cache c) with
    | Done (_, s) => Done (with_store c s)
    | ContractViolation => ContractViolation
    end.
Proof.
  unfold after. rewrite call_cacheObject; simpl.
  destruct (insert _ _ _ _) as [[[] s]|]; reflexivity.
Qed.

Lemma after_objectForKey (c : RCache) key :
  after (objectForKey key) c =
    match find key (cache c) with
    | Done (_, s) => Done (with_store c s)
    | ContractViolation => ContractViolation
    end.
Proof.
  unfold after. rewrite call_objectForKey; simpl.
  destruct (find _ _) as [[found s]|]; reflexivity.
Qed.

Lemma after_compact (c : RCache) f :
  after (compact f) c =
    match CacheImpl.compact f (cache c) with
    | Done (_, s) => Done (with_store c s)
    | ContractViolation => ContractViolation
    end.
Proof.
  unfold after. rewrite call_compact; simpl.
  destruct (CacheImpl.compact _ _) as [[[] s]|]; reflexivity.
Qed.

Lemma after_removeAllObjects (c : RCache) :
  after removeAllObjects c =
    match CacheImpl.removeAllObjects (cache c) with
    | Done (_, s) => Done (with_store c s)
    | ContractViolation => ContractViolation
    end.
Proof.
  unfold after. rewrite call_removeAllObjects; simpl. reflexivity.
Qed.

(** A valid operation on a sound cache completes and leaves it sound, with
    the configuration it had. *)
Lemma run_op_sound (o : Op) (c : RCache) :
  valid_op o -> CacheImpl.sound (cache c) ->
  exists c', run_op o c = Done c' /\ CacheImpl.sound (cache c') /\
             CacheImpl.maxCost (cache c') = CacheImpl.maxCost (cache c) /\
             CacheImpl.compactionFactor (cache c') =
               CacheImpl.compactionFactor (cache c).
Proof.
  intros Hv Hs. destruct o as [key object cost | key | f |]; simpl.
  - rewrite after_cacheObject.
    destruct (insert_sound Key_eq KeyHasher key object (Z.of_N cost) _
                (N2Z.is_nonneg cost) Hs) as (s' & -> & Hs' & Hcfg).
    eexists; split; [reflexivity|]. split; assumption.
  - rewrite after_objectForKey.
    destruct (find_sound Key_eq KeyHasher key _ Hs)
      as (found & s' & -> & Hs' & Hcfg).
    eexists; split; [reflexivity|]. split; assumption.
  - rewrite after_compact. destruct Hv as [Hpos Hle].
    destruct (compact_sound f _ Hpos Hle Hs) as (s' & -> & Hs' & Hcfg).
    eexists; split; [reflexivity|]. split; assumption.
  - rewrite after_removeAllObjects.
    destruct (removeAllObjects_sound _ Hs) as (s' & -> & Hs' & Hcfg).
    eexists; split; [reflexivity|]. split; assumption.
Qed.

Lemma run_sound (ops : list Op) (c : RCache) :
  Forall valid_op ops -> CacheImpl.sound (cache c) ->
  exists c', run ops c = Done c' /\ CacheImpl.sound (cache c') /\
             CacheImpl.maxCost (cache c') = CacheImpl.maxCost (cache c).
Proof.
  intros Hops. revert c.
  induction Hops as [|o ops Ho Hops IH]; intros c Hs; simpl.
  - exists c. auto.
  - destruct (run_op_sound o c Ho Hs) as (c1 & -> & Hs1 & Hmax1 & _).
    destruct (IH c1 Hs1) as (c' & Hrun & Hs' & Hmax').
    exists c'. split; [exact Hrun|]. split; [exact Hs'|]. congruence.
Qed.

(** C6. From an empty cache with a compaction factor in (0,1], every
    sequence of operations with valid arguments completes, the running total
    is the sum of the costs of the entries held, and that sum is at most
    [maxCost] whenever more than one entry is held; it can exceed [maxCost]
    only for an entry held alone. *)
Theorem cost_invariant (cacheName : string) (maxCost : N) (factor : Q)
    (p : ptr) (ops : list (@Op _ _ Obj))
    (Hpos : (0 < factor)%Q) (Hle : (factor <= 1)%Q)
    (Hops : Forall valid_op ops) :
  exists c : RCache,
    run ops (fresh_cache cacheName maxCost factor p) = Done c /\
    CacheImpl.totalCost (cache c) = held_cost c /\
    ((1 < length (held_keys c))%nat -> held_cost c <= Z.of_N maxCost) /\
    (Z.of_N maxCost < held_cost c ->
     exists e, CacheImpl.entries (cache c) = [e]).
Proof.
  destruct (run_sound ops (fresh_cache cacheName maxCost factor p) Hops)
    as (c & Hrun & Hs & Hmax).
  { apply create_sound; assumption. }
  exists c. split; [exact Hrun|].
  destruct Hs as (_ & _ & _ & Hacc & _ & Hbudget).
  unfold CacheImpl.accounted, CacheImpl.within_budget in *.
  unfold held_cost, held_keys. rewrite length_map.
  simpl in Hmax. rewrite Hmax in Hbudget.
  split; [symmetry; exact Hacc|]. split.
  - intros Hlen. apply Hbudget. lia.
  - intros Hover.
    destruct (CacheImpl.entries (cache c)) as [|e [|e' l]] eqn:He.
    + exfalso. apply Z.lt_nge in Hover. apply Hover, Hbudget. simpl; lia.
    + exists e. reflexivity.
    + exfalso. apply Z.lt_nge in Hover. apply Hover, Hbudget. simpl; lia.
Qed.

Lemma over_target_120 (factor : Q) :
  (factor <= 1)%Q -> CacheImpl.within_target 120 100 factor = false.
Proof.
  intros Hle. unfold CacheImpl.within_target.
  destruct (Qle_bool _ _) eqn:Hb; [|reflexivity].
  apply Qle_bool_iff in Hb. exfalso.
  destruct factor as [n d]. unfold Qle in *; simpl in *. lia.
Qed.

Lemma at_target_80 (factor : Q) :
  (4 # 5 <= factor)%Q -> CacheImpl.within_target 80 100 factor = true.
Proof.
  intros Hge. unfold CacheImpl.within_target. apply Qle_bool_iff.
  destruct factor as [n d]. unfold Qle in *; simpl in *. lia.
Qed.

Lemma no_match (k k' : Key) (o : Obj) (cost : Z) (r i : nat) :
  Key_eq k k' = false ->
  matches k' (CacheImpl.mkEntry k o cost r i) = false.
Proof.
  intros Hne. unfold CacheImpl.matches; simpl. rewrite Hne.
  apply andb_false_r.
Qed.

(** C7, amended. With [maxCost = 100] and a compaction factor between 0.8
    and 1, three inserts of cost 40 under pairwise distinct keys into an
    empty cache evict exactly the first key: the cache holds the second and
    the third, at a total cost of 80. *)
Theorem three_inserts_evict_first (cacheName : string) (factor : Q) (p : ptr)
    (k1 k2 k3 : Key) (o1 o2 o3 : Obj)
    (H12 : distinct k1 k2) (H13 : distinct k1 k3) (H23 : distinct k2 k3)
    (Hge : (4 # 5 <= factor)%Q) (Hle : (factor <= 1)%Q) :
  three_inserts_leave cacheName factor p k1 k2 k3 o1 o2 o3 [k2; k3] 80.
Proof.
  destruct H12 as [H12 _], H13 as [H13 _], H23 as [H23 _].
  set (e1 := CacheImpl.mkEntry k1 o1 40 1 1).
  set (e2 := CacheImpl.mkEntry k2 o2 40 2 2).
  set (e3 := CacheImpl.mkEntry k3 o3 40 3 3).
  set (s0 := @CacheImpl.create Key Obj cacheName 100 factor).
  set (s1 := CacheImpl.mkStore cacheName 100 factor [e1] 40 1).
  set (s2 := CacheImpl.mkStore cacheName 100 factor [e1; e2] 80 2).
  set (s3 := CacheImpl.mkStore cacheName 100 factor [e2; e3] 80 3).
  assert (E1 : insert k1 o1 (Z.of_N 40) s0 = Done (tt, s1)) by reflexivity.
  assert (E2 : insert k2 o2 (Z.of_N 40) s1 = Done (tt, s2)).
  { unfold CacheImpl.insert.
    rewrite (detach_no_match Key_eq KeyHasher k2 (CacheImpl.entries s1))
      by (repeat constructor; apply no_match; assumption).
    reflexivity. }
  assert (E3 : insert k3 o3 (Z.of_N 40) s2 = Done (tt, s3)).
  { unfold CacheImpl.insert.
    rewrite (detach_no_match Key_eq KeyHasher k3 (CacheImpl.entries s2))
      by (repeat constructor; apply no_match; assumption).
    unfold s2, s3; simpl.
    change (80 - 0 + 40) with 120. change (120 - 40) with 80.
    rewrite (over_target_120 factor Hle); simpl.
    rewrite (at_target_80 factor Hge). reflexivity. }
  exists (with_store (fresh_cache cacheName 100 factor p) s3).
  split; [|repeat split].
  unfold three_inserts. cbn [run run_op].
  rewrite after_cacheObject.
  change (cache (fresh_cache cacheName 100 factor p)) with s0. rewrite E1.
  rewrite after_cacheObject.
  change (cache (with_store _ s1)) with s1. rewrite E2.
  rewrite after_cacheObject.
  change (cache (with_store _ s2)) with s2. rewrite E3.
  reflexivity.
Qed.

(** *** Eviction order *)

Lemma older_evicted_before (l : list (@CacheImpl.Entry Key Obj)) :
  StronglySorted CacheImpl.older l ->
  StronglySorted CacheImpl.evicted_before l.
Proof.
  induction 1 as [|e l Hl IH He]; constructor; [exact IH|].
  eapply Forall_impl; [exact He|]. intros x Hx. left. exact Hx.
Qed.

Lemma run_cons (o : Op) (ops : list Op) (c c' : RCache) :
  run (o :: ops) c = Done c' ->
  exists c1, run_op o c = Done c1 /\ run ops c1 = Done c'.
Proof.
  simpl. destruct (run_op o c) as [c1|]; [|discriminate].
  intros Hrun. exists c1. auto.
Qed.

(** What a completed [cacheObject] did. *)
Lemma cacheObject_Done (c c' : RCache) key object cost :
  run_op (OpCacheObject key object cost) c = Done c' ->
  exists old rest gone kept total,
    let now := S (CacheImpl.clock (cache c)) in
    detach key (CacheImpl.entries (cache c)) = (old, rest) /\
    rest ++ [CacheImpl.mkEntry key object (Z.of_N cost) now now] =
      gone ++ kept /\
    c' = with_store c
           (CacheImpl.mkStore (CacheImpl.name (cache c))
              (CacheImpl.maxCost (cache c))
              (CacheImpl.compactionFactor (cache c)) kept total now).
Proof.
  simpl. rewrite after_cacheObject.
  destruct (insert_Done Key_eq KeyHasher key object (Z.of_N cost) (cache c)
              (N2Z.is_nonneg cost))
    as (old & rest & gone & kept & Hd & Hl & -> & _).
  intros [= <-]. exists old, rest, gone, kept. eexists. simpl. eauto.
Qed.

(** What a completed [compact] did. *)
Lemma compact_op_Done (c c' : RCache) f :
  run_op (OpCompact f) c = Done c' ->
  exists gone kept total,
    CacheImpl.entries (cache c) = gone ++ kept /\
    c' = with_store c
           (CacheImpl.mkStore (CacheImpl.name (cache c))
              (CacheImpl.maxCost (cache c))
              (CacheImpl.compactionFactor (cache c)) kept total
              (CacheImpl.clock (cache c))).
Proof.
  simpl. rewrite after_compact.
  destruct (CacheImpl.valid_factor f) eqn:Hv.
  - destruct (compact_Done f (cache c) Hv) as (gone & kept & Hl & -> & _).
    intros [= <-]. exists gone, kept. eexists. eauto.
  - unfold CacheImpl.compact. rewrite Hv. discriminate.
Qed.

(** What a completed [objectForKey] did. *)
Lemma objectForKey_Done (c c' : RCache) key calls found :
  call (objectForKey key) c = (calls, Done (found, c')) ->
  calls = [CK.CallFind key] /\
  exists s, find key (cache c) = Done (found, s) /\ c' = with_store c s.
Proof.
  rewrite call_objectForKey. simpl.
  destruct (find key (cache c)) as [[r s]|]; simpl; [|discriminate].
  intros [= <- <- <-]. split; [reflexivity|]. exists s. auto.
Qed.

Lemma suffix_no_match (key : Key) (l gone kept : list CacheImpl.Entry) :
  l = gone ++ kept ->
  Forall (fun x => matches key x = false) l ->
  Forall (fun x => matches key x = false) kept.
Proof. intros ->. rewrite Forall_app. tauto. Qed.

(** Three inserts under distinct keys, a [find] that hits the first key,
    and a compaction that leaves two entries: the second key is the one
    evicted. *)
Lemma touched_entry_survives (cacheName : string) (maxCost : N) (factor : Q)
    (p : ptr) (A B C : Key) (oA oB oC : Obj) (costA costB costC : N)
    (c3 c4 c5 : RCache) (calls : list (CK.ImplCall Key Obj))
    (found : Obj) (f : Q) :
  distinct A B -> distinct A C -> distinct B C ->
  run [OpCacheObject A oA costA; OpCacheObject B oB costB;
       OpCacheObject C oC costC]
      (fresh_cache cacheName maxCost factor p) = Done c3 ->
  call (objectForKey A) c3 = (calls, Done (Some found, c4)) ->
  run_op (OpCompact f) c4 = Done c5 ->
  length (held_keys c5) = 2%nat ->
  held_keys c3 = [A; B; C] /\ held_keys c4 = [B; C; A] /\
  held_keys c5 = [C; A] /\ found = oA.
Proof.
  intros [HAB HBA] [HAC HCA] [HBC HCB] Hrun Hfind Hcompact Hlen.
  set (eA := CacheImpl.mkEntry A oA (Z.of_N costA) 1 1).
  set (eB := CacheImpl.mkEntry B oB (Z.of_N costB) 2 2).
  set (eC := CacheImpl.mkEntry C oC (Z.of_N costC) 3 3).
  assert (mAB : matches B eA = false) by (apply no_match; assumption).
  assert (mAC : matches C eA = false) by (apply no_match; assumption).
  assert (mBC : matches C eB = false) by (apply no_match; assumption).
  assert (mBA : matches A eB = false) by (apply no_match; assumption).
  assert (mCA : matches A eC = false) by (apply no_match; assumption).
  apply run_cons in Hrun as (c1 & H1 & Hrun).
  apply run_cons in Hrun as (c2 & H2 & Hrun).
  apply run_cons in Hrun as (c3' & H3 & Hrun).
  injection Hrun as <-.
  apply cacheObject_Done in H1
    as (old1 & rest1 & g1 & k1 & t1 & Hd1 & Hl1 & ->).
  injection Hd1 as <- <-.
  change ([eA] = g1 ++ k1) in Hl1.
  apply cacheObject_Done in H2
    as (old2 & rest2 & g2 & k2 & t2 & Hd2 & Hl2 & ->).
  change (detach B k1 = (old2, rest2)) in Hd2.
  rewrite (detach_no_match Key_eq KeyHasher B k1) in Hd2
    by (apply (suffix_no_match B _ _ _ Hl1); repeat constructor; assumption).
  injection Hd2 as <- <-.
  change (k1 ++ [eB] = g2 ++ k2) in Hl2.
  apply cacheObject_Done in H3
    as (old3 & rest3 & g3 & k3 & t3 & Hd3 & Hl3 & ->).
  change (detach C k2 = (old3, rest3)) in Hd3.
  rewrite (detach_no_match Key_eq KeyHasher C k2) in Hd3.
  2:{ apply (suffix_no_match C _ _ _ Hl2). apply Forall_app. split.
      - apply (suffix_no_match C _ _ _ Hl1); repeat constructor; assumption.
      - repeat constructor; assumption. }
  injection Hd3 as <- <-.
  change (k2 ++ [eC] = g3 ++ k3) in Hl3.
  assert (Hall : [eA; eB; eC] = (g1 ++ g2 ++ g3) ++ k3).
  { change [eA; eB; eC] with (([eA] ++ [eB]) ++ [eC]).
    rewrite Hl1, <- (app_assoc g1 k1), Hl2, <- !app_assoc, Hl3.
    reflexivity. }
  clear Hl1 Hl2 Hl3.
  apply objectForKey_Done in Hfind as (_ & s4 & Hfind & ->).
  cbn [cache with_store fresh_cache CK.impl_create RendererEngine
       CacheImpl.engine CacheImpl.create CacheImpl.name CacheImpl.maxCost
       CacheImpl.compactionFactor CacheImpl.clock] in Hfind.
  assert (Hk3 : k3 = [eA; eB; eC] /\ matches A eA = true).
  { unfold CacheImpl.find in Hfind. simpl CacheImpl.entries in Hfind.
    destruct (g1 ++ g2 ++ g3) as [|x [|y [|z G]]]; simpl in Hall.
    - subst k3. split; [reflexivity|].
      destruct (matches A eA) eqn:HmA; [reflexivity|]. exfalso.
      rewrite (detach_no_match Key_eq KeyHasher A [eA; eB; eC]) in Hfind
        by (repeat constructor; assumption).
      discriminate Hfind.
    - exfalso. injection Hall as _ <-.
      rewrite (detach_no_match Key_eq KeyHasher A [eB; eC]) in Hfind
        by (repeat constructor; assumption).
      discriminate Hfind.
    - exfalso. injection Hall as _ _ <-.
      rewrite (detach_no_match Key_eq KeyHasher A [eC]) in Hfind
        by (repeat constructor; assumption).
      discriminate Hfind.
    - exfalso. injection Hall as _ _ _ Hnil.
      destruct G; [|discriminate Hnil]. simpl in Hnil. subst k3.
      discriminate Hfind. }
  destruct Hk3 as [-> HmA].
  unfold CacheImpl.find in Hfind. cbn [CacheImpl.entries CacheImpl.detach]
    in Hfind. rewrite HmA in Hfind. injection Hfind as <- <-.
  apply compact_op_Done in Hcompact as (g & k & t & Hl & ->).
  split; [reflexivity|]. split; [reflexivity|]. split; [|reflexivity].
  unfold held_keys in *. simpl in Hl, Hlen |- *.
  destruct g as [|x [|y [|z g]]]; simpl in Hl.
  - subst k. discriminate Hlen.
  - injection Hl as _ <-. reflexivity.
  - injection Hl as _ _ <-. discriminate Hlen.
  - injection Hl as _ _ _ Hnil. destruct g; [|discriminate Hnil].
    simpl in Hnil. subst k. discriminate Hlen.
Qed.

(** C8. In every cache reached from an empty one by operations with valid
    arguments, [compact] and the eviction pass of [cacheObject] drop a prefix
    of the recency order: what is evicted and what is kept, in that order,
    have strictly increasing recency tokens, hence are ordered by recency and
    then by insertion. In particular, after inserts under distinct keys A, B,
    C and a [find] that hits A, a compaction that leaves two entries has
    evicted B and kept C and A. *)
Theorem eviction_is_least_recent_first (cacheName : string) (maxCost : N)
    (factor : Q) (p : ptr) (ops : list (@Op _ _ Obj)) (c : RCache)
    (Hpos : (0 < factor)%Q) (Hle : (factor <= 1)%Q)
    (Hops : Forall valid_op ops)
    (Hrun : run ops (fresh_cache cacheName maxCost factor p) = Done c) :
  (forall f c', run_op (OpCompact f) c = Done c' ->
     exists gone,
       CacheImpl.entries (cache c) = gone ++ CacheImpl.entries (cache c') /\
       StronglySorted CacheImpl.older
         (gone ++ CacheImpl.entries (cache c')) /\
       StronglySorted CacheImpl.evicted_before
         (gone ++ CacheImpl.entries (cache c'))) /\
  (forall key object cost c',
     run_op (OpCacheObject key object cost) c = Done c' ->
     exists old rest gone,
       let now := S (CacheImpl.clock (cache c)) in
       detach key (CacheImpl.entries (cache c)) = (old, rest) /\
       rest ++ [CacheImpl.mkEntry key object (Z.of_N cost) now now] =
         gone ++ CacheImpl.entries (cache c') /\
       StronglySorted CacheImpl.older
         (gone ++ CacheImpl.entries (cache c')) /\
       StronglySorted CacheImpl.evicted_before
         (gone ++ CacheImpl.entries (cache c'))) /\
  (forall A B C oA oB oC costA costB costC calls found c4 f c5,
     ops = [OpCacheObject A oA costA; OpCacheObject B oB costB;
            OpCacheObject C oC costC] ->
     distinct A B -> distinct A C -> distinct B C ->
     call (objectForKey A) c = (calls, Done (Some found, c4)) ->
     run_op (OpCompact f) c4 = Done c5 ->
     length (held_keys c5) = 2%nat ->
     held_keys c = [A; B; C] /\ held_keys c4 = [B; C; A] /\
     held_keys c5 = [C; A]).
Proof.
  destruct (run_sound ops (fresh_cache cacheName maxCost factor p) Hops)
    as (c0 & Hrun0 & Hs & _).
  { apply create_sound; assumption. }
  rewrite Hrun in Hrun0. injection Hrun0 as <-.
  destruct Hs as (_ & _ & _ & _ & [Hsorted Hclock] & _).
  split; [|split].
  - intros f c' Hc.
    apply compact_op_Done in Hc as (gone & kept & total & Hl & ->).
    exists gone. simpl. rewrite <- Hl.
    split; [reflexivity|]. split; [|apply older_evicted_before]; assumption.
  - intros key object cost c' Hc.
    apply cacheObject_Done in Hc
      as (old & rest & gone & kept & total & Hd & Hl & ->).
    exists old, rest, gone. simpl. rewrite <- Hl.
    destruct (detach_ordered _ _ _ _ _ _ _ Hd Hsorted Hclock) as [Hs' Hc'].
    destruct (snoc_ordered rest
                (CacheImpl.mkEntry key object (Z.of_N cost)
                   (S (CacheImpl.clock (cache c)))
                   (S (CacheImpl.clock (cache c)))) _ Hs' Hc' eq_refl)
      as [Hs2 _].
    split; [exact Hd|]. split; [reflexivity|].
    split; [|apply older_evicted_before]; assumption.
  - intros A B C oA oB oC costA costB costC calls found c4 f c5
      -> HAB HAC HBC Hfind Hcompact Hlen.
    destruct (touched_entry_survives _ _ _ _ _ _ _ _ _ _ _ _ _ _ _ _ _ _ _
                HAB HAC HBC Hrun Hfind Hcompact Hlen) as (H3 & H4 & H5 & _).
    auto.
Qed.

(** *** Contract violations and completion *)

(** C9. On the engine, an insert with a negative cost and a compaction with
    a factor outside (0,1] stop with a contract violation, and the facade
    passes the violation of [compact] on; every operation of the facade whose
    arguments are valid completes; a [find] that matches no entry returns the
    empty result as an ordinary completion and leaves the cache as it was. *)
Theorem violations_fail_fast_valid_calls_complete :
  (forall key (payload : Obj) cost s,
     cost < 0 -> insert key payload cost s = ContractViolation) /\
  (forall f (c : RCache),
     ((f <= 0)%Q \/ (1 < f)%Q) ->
     CacheImpl.compact f (cache c) = ContractViolation /\
     call (compact f) c = ([CK.CallCompact f], ContractViolation)) /\
  (forall (o : Op) (c : RCache),
     valid_op o -> exists c', run_op o c = Done c') /\
  (forall key (c : RCache),
     Forall (fun e => matches key e = false) (CacheImpl.entries (cache c)) ->
     call (objectForKey key) c = ([CK.CallFind key], Done (None, c))).
Proof.
  split; [|split; [|split]].
  - intros key payload cost s Hneg. unfold CacheImpl.insert.
    apply Z.ltb_lt in Hneg. now rewrite Hneg.
  - intros f c Hout.
    assert (Hc : CacheImpl.compact f (cache c) = ContractViolation).
    { unfold CacheImpl.compact. now rewrite (valid_factor_false f Hout). }
    split; [exact Hc|]. rewrite call_compact. simpl. now rewrite Hc.
  - intros [key object cost | key | f |] c Hv; simpl.
    + rewrite after_cacheObject.
      destruct (insert_Done Key_eq KeyHasher key object (Z.of_N cost)
                  (cache c) (N2Z.is_nonneg cost))
        as (old & rest & gone & kept & _ & _ & -> & _).
      eexists; reflexivity.
    + rewrite after_objectForKey.
      destruct (find_Done Key_eq KeyHasher key (cache c))
        as [(e & rest & _ & ->) | [_ ->]]; eexists; reflexivity.
    + rewrite after_compact. destruct Hv as [Hpos Hle].
      destruct (compact_Done f (cache c) (valid_factor_true f Hpos Hle))
        as (gone & kept & _ & -> & _).
      eexists; reflexivity.
    + rewrite after_removeAllObjects. eexists; reflexivity.
  - intros key c Hmiss. rewrite call_objectForKey. simpl.
    unfold CacheImpl.find.
    rewrite (detach_no_match Key_eq KeyHasher key _ Hmiss). simpl.
    destruct c; reflexivity.
Qed.

(** *** The backgrounding hook *)

(** C4. For a live [Cache], running the backgrounding hook of its observer
    makes exactly one engine call, [removeAllObjects], on the engine of that
    same [Cache]: afterwards it holds no entry and its total cost is zero;
    its configuration, its observer and the rest of the process are as
    before. *)
Theorem onEnterBackground_removes_all (this : ptr) (c : RCache)
    (w : @World _ _ Obj RendererEngine)
    (Hlive : @alive _ _ Obj RendererEngine this c w) :
  fire onEnterBackground (applicationObserver c) w =
    Some ([CK.CallRemoveAllObjects],
          Done (mkProcess (localCenter w) (observers w)
                  (<[this :=
                       with_store c
                         (CacheImpl.mkStore (CacheImpl.name (cache c))
                            (CacheImpl.maxCost (cache c))
                            (CacheImpl.compactionFactor (cache c))
                            [] 0 (CacheImpl.clock (cache c)))]>
                     (caches w)))).
Proof.
  destruct Hlive as [Hc Ho].
  unfold fire. rewrite Ho. cbn [Cache_observer onEnterBackground].
  unfold invoke. cbn [captured_this body]. rewrite Hc.
  rewrite call_removeAllObjects. reflexivity.
Qed.

End RendererFacts.

(** ** The theorems at concrete inputs *)

Lemma KeyHasher_consistent_witness :
  let k1 := sampleKey 1 "Like" (320 # 1) (44 # 1) 77 in
  let k2 := sampleKey 1 "Like" (640 # 2) (88 # 2) 77 in
  let k3 := sampleKey 2 "Share" (0 # 1) (0 # 1) 5 in
  Key_eq k1 k2 = true /\ KeyHasher k3 = 5%N /\
  KeyHasher k1 = KeyHasher k2.
Proof.
  intros k1 k2 k3.
  assert (Heq : Key_eq k1 k2 = true) by reflexivity.
  split; [exact Heq|].
  destruct (KeyHasher_consistent k3 k1 k2) as [Hstored Hsame].
  split; [exact Hstored | exact (Hsame Heq)].
Defined.

Lemma onLowMemory_compacts_once_witness :
  let w := @Cache_ctor _ _ nat sampleEngine 7%positive "renderers" 100 1
             sampleWorld in
  let c := mkCache (CK.impl_create "renderers" 100 1)
             (fresh (dom (observers sampleWorld))) in
  alive 7%positive c w /\
  exists r,
    fire onLowMemory (applicationObserver c) w =
      Some ([CK.CallCompact (95 # 100)], r).
Proof.
  intros w c.
  assert (Hlive : alive 7%positive c w) by apply Cache_ctor_alive.
  split; [exact Hlive|].
  eexists. exact (proj1 (onLowMemory_compacts_once 7%positive c w Hlive)).
Defined.

Lemma onEnterBackground_removes_all_witness :
  let w := @Cache_ctor _ _ nat sampleEngine 7%positive "renderers" 100 1
             sampleWorld in
  let c := mkCache (CK.impl_create "renderers" 100 1)
             (fresh (dom (observers sampleWorld))) in
  alive 7%positive c w /\
  exists r,
    fire onEnterBackground (applicationObserver c) w =
      Some ([CK.CallRemoveAllObjects], Done r).
Proof.
  intros w c.
  assert (Hlive : alive 7%positive c w) by apply Cache_ctor_alive.
  split; [exact Hlive|].
  eexists. exact (onEnterBackground_removes_all 7%positive c w Hlive).
Defined.

Lemma cost_invariant_witness :
  let ops := [OpCacheObject sampleK1 1%nat 70; OpCacheObject sampleK2 2%nat 50;
              OpObjectForKey sampleK2; OpCompact (1 # 2);
              OpCacheObject sampleK3 3%nat 500] in
  ((0 < 9 # 10)%Q /\ (9 # 10 <= 1)%Q /\ Forall valid_op ops) /\
  exists c,
    run ops (fresh_cache "renderers" 100 (9 # 10) 1%positive) = Done c /\
    ((1 < length (held_keys c))%nat -> held_cost c <= 100).
Proof.
  intros ops.
  assert (Hpos : (0 < 9 # 10)%Q) by reflexivity.
  assert (Hle : (9 # 10 <= 1)%Q) by (unfold Qle; simpl; lia).
  assert (Hops : Forall valid_op ops).
  { repeat constructor; simpl; unfold Qle; simpl; lia. }
  split; [auto|].
  destruct (cost_invariant "renderers" 100 (9 # 10) 1%positive ops
              Hpos Hle Hops) as (c & Hrun & _ & Hbound & _).
  exists c. split; [exact Hrun | exact Hbound].
Defined.

Lemma three_inserts_evict_first_witness :
  (distinct sampleK1 sampleK2 /\ distinct sampleK1 sampleK3 /\
   distinct sampleK2 sampleK3 /\ (4 # 5 <= 1)%Q /\ (1 <= 1)%Q) /\
  three_inserts_leave "renderers" 1 1%positive sampleK1 sampleK2 sampleK3
    1%nat 2%nat 3%nat [sampleK2; sampleK3] 80.
Proof.
  assert (H12 : distinct sampleK1 sampleK2) by (split; reflexivity).
  assert (H13 : distinct sampleK1 sampleK3) by (split; reflexivity).
  assert (H23 : distinct sampleK2 sampleK3) by (split; reflexivity).
  assert (Hge : (4 # 5 <= 1)%Q) by (unfold Qle; simpl; lia).
  assert (Hle : (1 <= 1)%Q) by (unfold Qle; simpl; lia).
  split; [auto 6|].
  exact (three_inserts_evict_first "renderers" 1 1%positive
           sampleK1 sampleK2 sampleK3 1%nat 2%nat 3%nat
           H12 H13 H23 Hge Hle).
Defined.

(** C7 as stated fails when the compaction factor is below 0.8: at 0.5 the
    eviction pass of the third insert goes on to 100 * 0.5 = 50 and drops the
    second key as well, leaving the third alone at a cost of 40. *)
Lemma three_inserts_at_half_leave_one :
  three_inserts_leave "renderers" (1 # 2) 1%positive
    sampleK1 sampleK2 sampleK3 1%nat 2%nat 3%nat [sampleK3] 40 /\
  ~ three_inserts_leave "renderers" (1 # 2) 1%positive
      sampleK1 sampleK2 sampleK3 1%nat 2%nat 3%nat [sampleK2; sampleK3] 80.
Proof.
  assert (Hrun :
    run (three_inserts sampleK1 sampleK2 sampleK3 1%nat 2%nat 3%nat)
        (fresh_cache "renderers" 100 (1 # 2) 1%positive) =
    Done (with_store (fresh_cache "renderers" 100 (1 # 2) 1%positive)
            (CacheImpl.mkStore "renderers" 100 (1 # 2)
               [CacheImpl.mkEntry sampleK3 3%nat 40 3 3] 40 3)))
    by reflexivity.
  split.
  - eexists. split; [exact Hrun|]. repeat split.
  - intros (c & Hrun' & _ & _ & Htotal).
    rewrite Hrun in Hrun'. injection Hrun' as <-. discriminate Htotal.
Qed.

Lemma eviction_is_least_recent_first_witness :
  let ops := [OpCacheObject sampleK1 1%nat 40; OpCacheObject sampleK2 2%nat 40;
              OpCacheObject sampleK3 3%nat 40] in
  let e2 := CacheImpl.mkEntry sampleK2 2%nat 40 2 2 in
  let e3 := CacheImpl.mkEntry sampleK3 3%nat 40 3 3 in
  let c := with_store (sampleCache 200 1)
             (CacheImpl.mkStore "renderers" 200 1
                [CacheImpl.mkEntry sampleK1 1%nat 40 1 1; e2; e3] 120 3) in
  let c4 := with_store (sampleCache 200 1)
              (CacheImpl.mkStore "renderers" 200 1
                 [e2; e3; CacheImpl.mkEntry sampleK1 1%nat 40 4 1] 120 4) in
  let c5 := with_store (sampleCache 200 1)
              (CacheImpl.mkStore "renderers" 200 1
                 [e3; CacheImpl.mkEntry sampleK1 1%nat 40 4 1] 80 4) in
  ((0 < 1)%Q /\ (1 <= 1)%Q /\ Forall valid_op ops /\
   run ops (sampleCache 200 1) = Done c /\
   distinct sampleK1 sampleK2 /\ distinct sampleK1 sampleK3 /\
   distinct sampleK2 sampleK3 /\
   call (objectForKey sampleK1) c =
     ([CK.CallFind sampleK1], Done (Some 1%nat, c4)) /\
   run_op (OpCompact (1 # 2)) c4 = Done c5 /\
   length (held_keys c5) = 2%nat) /\
  held_keys c5 = [sampleK3; sampleK1].
Proof.
  intros ops e2 e3 c c4 c5.
  assert (Hpos : (0 < 1)%Q) by reflexivity.
  assert (Hle : (1 <= 1)%Q) by (unfold Qle; simpl; lia).
  assert (Hops : Forall valid_op ops) by (repeat constructor).
  assert (H12 : distinct sampleK1 sampleK2) by (split; reflexivity).
  assert (H13 : distinct sampleK1 sampleK3) by (split; reflexivity).
  assert (H23 : distinct sampleK2 sampleK3) by (split; reflexivity).
  assert (Hrun : run ops (sampleCache 200 1) = Done c) by reflexivity.
  assert (Hfind : call (objectForKey sampleK1) c =
                    ([CK.CallFind sampleK1], Done (Some 1%nat, c4)))
    by reflexivity.
  assert (Hcompact : run_op (OpCompact (1 # 2)) c4 = Done c5) by reflexivity.
  assert (Hlen : length (held_keys c5) = 2%nat) by reflexivity.
  split; [auto 12|].
  exact (proj2 (proj2 (proj2 (proj2
           (eviction_is_least_recent_first "renderers" 200 1 1%positive ops c
              Hpos Hle Hops Hrun))
           sampleK1 sampleK2 sampleK3 1%nat 2%nat 3%nat 40%N 40%N 40%N
           _ _ _ _ _ eq_refl H12 H13 H23 Hfind Hcompact Hlen))).
Defined.

(** * Further properties of the header *)

Import Lifecycle.

(** ** The key *)

Section KeyEquality.
Context `{CoreGraphics} `{TextKitAttributes}.

(** X1. A key compares equal to itself exactly when its constrained size
    and its attributes do: the hash and the style always agree with
    themselves. *)
Theorem Key_eq_self (k : Key) :
  Key_eq k k =
    CGSizeEqualToSize (constrainedSize k) (constrainedSize k)
    && CKTextKitAttributes_eq (attributes k) (attributes k).
Proof.
  rewrite Key_eq_unfold. simpl.
  rewrite N.eqb_refl, Z.eqb_refl, andb_true_r. reflexivity.
Qed.

(** X2. When the comparisons of sizes and of attributes are symmetric and
    transitive, so is the comparison of keys. *)
Theorem Key_eq_symmetric_transitive
    (Hsize_sym : forall a b, CGSizeEqualToSize a b = CGSizeEqualToSize b a)
    (Hattr_sym : forall a b,
       CKTextKitAttributes_eq a b = CKTextKitAttributes_eq b a)
    (Hsize_trans : forall a b c,
       CGSizeEqualToSize a b = true -> CGSizeEqualToSize b c = true ->
       CGSizeEqualToSize a c = true)
    (Hattr_trans : forall a b c,
       CKTextKitAttributes_eq a b = true ->
       CKTextKitAttributes_eq b c = true ->
       CKTextKitAttributes_eq a c = true) :
  (forall k1 k2 : Key, Key_eq k1 k2 = Key_eq k2 k1) /\
  (forall k1 k2 k3 : Key,
     Key_eq k1 k2 = true -> Key_eq k2 k3 = true -> Key_eq k1 k3 = true).
Proof.
  split.
  - intros k1 k2. rewrite !Key_eq_unfold. simpl.
    rewrite (N.eqb_sym (hash k1)), (Z.eqb_sym (userInterfaceStyle k1)),
      (Hsize_sym (constrainedSize k1)), (Hattr_sym (attributes k1)).
    reflexivity.
  - intros k1 k2 k3 H12 H23.
    apply Key_eq_true in H12 as (Hh & Hs & Ha & Hu).
    apply Key_eq_true in H23 as (Hh' & Hs' & Ha' & Hu').
    apply Key_eq_true. repeat split; try congruence; eauto.
Qed.

(** X3. The comparison of the attributes is made exactly when the hashes
    and the constrained sizes have compared equal; keys whose hashes differ
    cost one comparison. *)
Theorem attributes_compared_after_hash_and_size (k1 k2 : Key) :
  (In CmpAttributes (Key_eq_comparisons k1 k2) <->
     hash k1 = hash k2 /\
     CGSizeEqualToSize (constrainedSize k1) (constrainedSize k2) = true) /\
  (hash k1 <> hash k2 -> Key_eq_comparisons k1 k2 = [CmpHash]).
Proof.
  unfold Key_eq_comparisons, Key_eq_traced, ShortCircuit.and_then,
    ShortCircuit.probe; simpl.
  destruct (hash k1 =? hash k2)%N eqn:Eh; simpl.
  2:{ apply N.eqb_neq in Eh. split; [|reflexivity].
      split; [intros [|[]]; discriminate | intros [Hh _]; contradiction]. }
  apply N.eqb_eq in Eh.
  destruct (CGSizeEqualToSize _ _) eqn:Es; simpl.
  2:{ split; [|contradiction].
      split; [intros [|[|[]]]; discriminate | intros [_ Ht]; discriminate]. }
  split; [|contradiction].
  destruct (CKTextKitAttributes_eq _ _); simpl; split; auto.
Qed.

End KeyEquality.

(** ** Construction, destruction and the hooks, for any engine *)

Section LifecycleFacts.
Context `{CoreGraphics} `{TextKitAttributes} {Obj : Type}.
Context `{E : CK.ConcurrentCacheImpl Key Obj}.

(** What running either stored hook of a live [Cache] does. *)
Lemma fire_hook (low : bool) (this : ptr) (c : Cache) (w : World) :
  alive this c w ->
  fire (hook_member low) (applicationObserver c) w =
    Some ([hook_call low],
          match CK.perform (hook_call low) (cache c) with
          | Done (_, s) =>
              Done (mkProcess (localCenter w) (observers w)
                      (<[this := mkCache s (applicationObserver c)]>
                         (caches w)))
          | ContractViolation => ContractViolation
          end).
Proof.
  intros [Hc Ho]. unfold fire. rewrite Ho.
  destruct low; cbn [hook_member hook_call Cache_observer onLowMemory
                     onEnterBackground];
    unfold invoke; cbn [captured_this body]; rewrite Hc.
  - rewrite call_compact. cbn [CK.perform].
    destruct (CK.impl_compact _ _) as [[[] s]|]; reflexivity.
  - rewrite call_removeAllObjects. cbn [CK.perform].
    destruct (CK.impl_removeAllObjects _) as [[[] s]|]; reflexivity.
Qed.

(** X4. Whatever the engine, running the backgrounding hook of a live
    [Cache] makes exactly one engine call, [removeAllObjects], on the engine
    of that [Cache]; the [Cache] keeps its observer, and the notification
    center, the observers and the other objects are as before. When the
    engine stops on a violation, so does the hook. *)
Theorem onEnterBackground_delegates (this : ptr) (c : Cache) (w : World)
    (Hlive : alive this c w) :
  fire onEnterBackground (applicationObserver c) w =
    Some ([CK.CallRemoveAllObjects],
          match CK.impl_removeAllObjects (cache c) with
          | Done (_, s) =>
              Done (mkProcess (localCenter w) (observers w)
                      (<[this := mkCache s (applicationObserver c)]>
                         (caches w)))
          | ContractViolation => ContractViolation
          end).
Proof. exact (fire_hook false this c w Hlive). Qed.

(** X5. Two live [Cache] objects are isolated: running a hook of one leaves
    the other exactly as it was and still live, and changes neither the
    notification center nor the observers. *)
Theorem hooks_do_not_reach_other_caches (low : bool) (this1 this2 : ptr)
    (c1 c2 : Cache) (w w' : World) (calls : list (CK.ImplCall Key Obj))
    (Hne : this1 <> this2)
    (H1 : alive this1 c1 w) (H2 : alive this2 c2 w)
    (Hfire : fire (hook_member low) (applicationObserver c1) w =
               Some (calls, Done w')) :
  alive this2 c2 w' /\
  localCenter w' = localCenter w /\ observers w' = observers w /\
  (forall this3, this3 <> this1 -> caches w' !! this3 = caches w !! this3).
Proof.
  rewrite (fire_hook low this1 c1 w H1) in Hfire.
  destruct (CK.perform _ _) as [[x s]|]; [|discriminate].
  injection Hfire as _ <-. destruct H2 as [Hc Ho].
  split; [split; simpl|]; [rewrite lookup_insert_ne by exact Hne | |]; auto.
  split; [reflexivity|]. split; [reflexivity|].
  intros this3 H3. simpl. apply lookup_insert_ne. congruence.
Qed.

(** X6. A [Cache] stays live through its hooks, so they compose: a memory
    warning followed by backgrounding makes the two engine calls
    [compact(0.95)] and [removeAllObjects], in that order, on the same
    engine, and leaves the [Cache] live with the engine the second call
    returns. *)
Theorem memory_warning_then_background (this : ptr) (c : Cache) (w : World)
    (s1 s2 : CK.impl)
    (Hlive : alive this c w)
    (Hcompact : CK.impl_compact (95 # 100) (cache c) = Done (tt, s1))
    (Hremove : CK.impl_removeAllObjects s1 = Done (tt, s2)) :
  exists w1 w2,
    fire onLowMemory (applicationObserver c) w =
      Some ([CK.CallCompact (95 # 100)], Done w1) /\
    fire onEnterBackground (applicationObserver c) w1 =
      Some ([CK.CallRemoveAllObjects], Done w2) /\
    alive this (mkCache s2 (applicationObserver c)) w2 /\
    localCenter w2 = localCenter w /\ observers w2 = observers w /\
    caches w2 = <[this := mkCache s2 (applicationObserver c)]> (caches w).
Proof.
  pose proof (fire_hook true this c w Hlive) as F1.
  cbn [hook_member hook_call CK.perform] in F1. rewrite Hcompact in F1.
  set (c1 := mkCache s1 (applicationObserver c)) in *.
  set (w1 := mkProcess (localCenter w) (observers w)
               (<[this := c1]> (caches w))) in *.
  assert (Hlive1 : alive this c1 w1).
  { destruct Hlive as [_ Ho]. split; simpl; [apply lookup_insert_eq|].
    exact Ho. }
  pose proof (fire_hook false this c1 w1 Hlive1) as F2.
  cbn [hook_member hook_call CK.perform] in F2.
  change (cache c1) with s1 in F2. rewrite Hremove in F2.
  eexists w1, _. split; [exact F1|]. split; [exact F2|].
  simpl. rewrite insert_insert_eq.
  split; [|auto]. destruct Hlive as [_ Ho].
  split; simpl; [apply lookup_insert_eq | exact Ho].
Qed.

(** X7. Constructing a [Cache] disturbs nothing that is live: every other
    live [Cache] stays live with the same state, the new [Cache] is live,
    its observer is a new object, different from the observer of every live
    [Cache], and every earlier registration is still in the center. *)
Theorem Cache_ctor_keeps_others_alive (this this' : ptr) (c' : Cache)
    (cacheName : string) (maxCost : N) (factor : Q) (w : World)
    (Hother : this' <> this) (Hlive : alive this' c' w) :
  let w' := Cache_ctor this cacheName maxCost factor w in
  let p := fresh (dom (observers w)) in
  alive this' c' w' /\
  alive this (mkCache (CK.impl_create cacheName maxCost factor) p) w' /\
  applicationObserver c' <> p /\
  observers w !! p = None /\
  (forall r, r ∈ localCenter w -> r ∈ localCenter w').
Proof.
  intros w' p. destruct Hlive as [Hc Ho].
  assert (Hp : observers w !! p = None).
  { apply not_elem_of_dom. apply is_fresh. }
  assert (Hne : applicationObserver c' <> p) by congruence.
  split; [|split; [apply Cache_ctor_alive | split; [exact Hne|split]]].
  - unfold w'. rewrite Cache_ctor_unfold. fold p. split; simpl.
    + rewrite lookup_insert_ne by congruence. exact Hc.
    + rewrite lookup_insert_ne by congruence. exact Ho.
  - exact Hp.
  - intros r Hr. unfold w'. rewrite Cache_ctor_unfold. simpl.
    apply elem_of_app. left. exact Hr.
Qed.

(** X8. Destroying a [Cache] releases its own observer and nothing else:
    another live [Cache] with its own observer stays live, and the
    notification center is left exactly as it was, registrations of the
    destroyed observer included. *)
Theorem Cache_dtor_keeps_others_alive (this this' : ptr) (c c' : Cache)
    (w : World)
    (Hother : this' <> this)
    (Hlive : alive this c w) (Hlive' : alive this' c' w)
    (Hown : applicationObserver c' <> applicationObserver c) :
  exists w',
    Cache_dtor this w = Some w' /\
    alive this' c' w' /\
    caches w' !! this = None /\
    observers w' !! applicationObserver c = None /\
    localCenter w' = localCenter w /\
    (forall r, r ∈ localCenter w ->
               reg_observer r = applicationObserver c -> dangling w' r).
Proof.
  destruct Hlive as [Hc Ho], Hlive' as [Hc' Ho'].
  unfold Cache_dtor. rewrite Hc. eexists; split; [reflexivity|].
  unfold delete_ApplicationObserver, ApplicationObserver_dtor, set_caches,
    set_observers, alive, dangling; simpl.
  rewrite !lookup_delete_eq, !lookup_delete_ne by congruence.
  split; [split; assumption|]. split; [reflexivity|].
  split; [reflexivity|]. split; [reflexivity|].
  intros r Hr Hobs. split; [exact Hr|]. rewrite Hobs.
  apply lookup_delete_eq.
Qed.

Lemma RemoveObserver_app (c1 c2 : CFNotificationCenter) (o : ptr)
    (name : NotificationName) :
  CFNotificationCenterRemoveObserver (c1 ++ c2) o name =
    CFNotificationCenterRemoveObserver c1 o name ++
    CFNotificationCenterRemoveObserver c2 o name.
Proof.
  unfold CFNotificationCenterRemoveObserver, CFNotificationCenter.
  apply filter_app.
Qed.

Lemma RemoveObserver_keeps (c : CFNotificationCenter) (o : ptr)
    (name : NotificationName) (r : Registration) :
  r ∈ CFNotificationCenterRemoveObserver c o name <->
  r ∈ c /\ ~ (reg_observer r = o /\ reg_name r = name).
Proof.
  unfold CFNotificationCenterRemoveObserver, CFNotificationCenter.
  rewrite list_elem_of_filter. tauto.
Qed.

Lemma RemoveObserver_other (c : CFNotificationCenter) (o : ptr)
    (name : NotificationName) :
  (forall r, r ∈ c -> reg_observer r <> o) ->
  CFNotificationCenterRemoveObserver c o name = c.
Proof.
  unfold CFNotificationCenterRemoveObserver, CFNotificationCenter in *.
  induction c as [|r c IH]; intros Hc; [reflexivity|].
  rewrite filter_cons_True.
  - f_equal. apply IH. intros r' Hr'. apply Hc.
    apply list_elem_of_further. exact Hr'.
  - intros [Hobs _]. apply (Hc r); [apply list_elem_of_here | exact Hobs].
Qed.

Lemma RemoveObserver_one (o : ptr) (cb : CFNotificationCallback)
    (name name' : NotificationName) :
  CFNotificationCenterRemoveObserver [mkRegistration o cb name'] o name =
    if decide (name' = name) then [] else [mkRegistration o cb name'].
Proof.
  unfold CFNotificationCenterRemoveObserver, CFNotificationCenter.
  destruct (decide (name' = name)) as [-> | Hne].
  - rewrite filter_cons_False by (intros Hn; apply Hn; auto). reflexivity.
  - rewrite filter_cons_True by (intros [_ Hn]; simpl in Hn; congruence).
    reflexivity.
Qed.

(** X11. The body that removes the registrations is the inverse of the
    constructor that makes them: run for the same object, it brings the
    notification center back to what it was before the construction,
    provided nothing was registered for that object then; and it never
    removes a registration of another observer. *)
Theorem removal_body_undoes_registration (this : ptr) (lowMem bg : Closure)
    (w : World)
    (Hnone : forall r, r ∈ localCenter w -> reg_observer r <> this) :
  localCenter
    (ApplicationObserver_ctor0 this
       (ApplicationObserver_ctor this lowMem bg w)) = localCenter w /\
  (forall (v : World) r,
     r ∈ localCenter v -> reg_observer r <> this ->
     r ∈ localCenter (ApplicationObserver_ctor0 this v)).
Proof.
  split.
  - unfold ApplicationObserver_ctor0, ApplicationObserver_ctor, set_center,
      set_observers, CFNotificationCenterAddObserver;
      cbn [localCenter observers caches].
    rewrite !RemoveObserver_app, !RemoveObserver_one.
    rewrite decide_True by reflexivity.
    rewrite decide_False by discriminate.
    rewrite RemoveObserver_one.
    rewrite decide_True by reflexivity.
    change (CFNotificationCenterRemoveObserver [] this
              UIApplicationDidEnterBackgroundNotification) with
      (@nil Registration).
    rewrite !app_nil_r.
    rewrite (RemoveObserver_other (localCenter w)) by assumption.
    rewrite (RemoveObserver_other (localCenter w)) by assumption.
    reflexivity.
  - intros v r Hr Hobs.
    unfold ApplicationObserver_ctor0, set_center, set_observers;
      cbn [localCenter observers caches].
    rewrite !RemoveObserver_keeps. repeat split; auto; intros [Ho _]; auto.
Qed.

(** One construction followed by the destruction, on storage that holds no
    [Cache]: the objects are as before and the center has two more
    registrations. *)
Lemma construct_destroy (this : ptr) (cacheName : string) (maxCost : N)
    (factor : Q) (w : World) :
  caches w !! this = None ->
  Cache_dtor this (Cache_ctor this cacheName maxCost factor w) =
    Some (mkProcess
            (localCenter w ++ registrations_of (fresh (dom (observers w))))
            (observers w) (caches w)).
Proof.
  intros Hfree. rewrite Cache_ctor_unfold.
  unfold Cache_dtor; simpl. rewrite lookup_insert_eq; simpl.
  unfold delete_ApplicationObserver, ApplicationObserver_dtor, set_caches,
    set_observers, registrations_of; simpl.
  rewrite (delete_insert_id _ _ _ Hfree).
  rewrite delete_insert_id
    by (apply not_elem_of_dom, is_fresh).
  reflexivity.
Qed.

(** X9. Constructing and destroying a [Cache] [n] times on the same storage
    brings every object back to what it was and leaves [2 * n] more
    registrations in the notification center, all naming an observer that
    is not live. *)
Theorem churn_leaves_registrations (n : nat) (this : ptr)
    (cacheName : string) (maxCost : N) (factor : Q) (w : World)
    (Hfree : caches w !! this = None) :
  let p := fresh (dom (observers w)) in
  exists w',
    churn n this cacheName maxCost factor w = Some w' /\
    observers w' = observers w /\ caches w' = caches w /\
    localCenter w' = localCenter w ++ concat (replicate n (registrations_of p)) /\
    length (localCenter w') = (length (localCenter w) + 2 * n)%nat /\
    (forall r, r ∈ concat (replicate n (registrations_of p)) -> dangling w' r).
Proof.
  intros p.
  assert (Hexact : forall m (v : World),
            caches v !! this = None ->
            churn m this cacheName maxCost factor v =
              Some (mkProcess
                      (localCenter v ++
                         concat (replicate m
                                   (registrations_of
                                      (fresh (dom (observers v))))))
                      (observers v) (caches v))).
  { induction m as [|m IH]; intros v Hv; simpl.
    - rewrite app_nil_r. destruct v; reflexivity.
    - rewrite (construct_destroy this cacheName maxCost factor v Hv).
      rewrite IH by exact Hv. simpl. rewrite <- app_assoc. reflexivity. }
  rewrite (Hexact n w Hfree). fold p.
  eexists; split; [reflexivity|]. simpl.
  split; [reflexivity|]. split; [reflexivity|]. split; [reflexivity|].
  split.
  - rewrite length_app. f_equal.
    induction n as [|n IH]; simpl; [reflexivity|]. rewrite IH. lia.
  - intros r Hr. split; simpl.
    + apply elem_of_app. right. exact Hr.
    + assert (Hp : reg_observer r = p).
      { clear -Hr. induction n as [|n IH]; simpl in Hr.
        - inversion Hr.
        - apply list_elem_of_In in Hr. simpl in Hr.
          destruct Hr as [<- | [<- | Hr]]; [reflexivity | reflexivity |].
          apply IH. apply list_elem_of_In. exact Hr. }
      rewrite Hp. apply not_elem_of_dom, is_fresh.
Qed.

(** *** Sequences of public calls *)

Lemma call_op_eq (o : Op) (c : Cache) :
  call_op o c =
    ([engine_call o],
     match CK.perform (engine_call o) (cache c) with
     | Done (_, s) => Done (mkCache s (applicationObserver c))
     | ContractViolation => ContractViolation
     end).
Proof.
  destruct o as [key object cost | key | f |]; simpl.
  - rewrite call_cacheObject.
    destruct (CK.impl_insert _ _ _ _) as [[[] s]|]; reflexivity.
  - rewrite call_objectForKey.
    destruct (CK.impl_find _ _) as [[found s]|]; reflexivity.
  - rewrite call_compact.
    destruct (CK.impl_compact _ _) as [[[] s]|]; reflexivity.
  - rewrite call_removeAllObjects.
    destruct (CK.impl_removeAllObjects _) as [[[] s]|]; reflexivity.
Qed.

(** X10. A sequence of public calls on a [Cache] is the same sequence of
    engine calls on its engine member: the same calls are made in the same
    order, the sequence stops at the same violation, and the engine ends in
    the same state. A sequence that completes has made one engine call per
    public call, and the [Cache] still has the observer it started with. *)
Theorem call_all_is_perform_all (ops : list Op) (c : Cache) :
  call_all ops c =
    (let '(calls, r) := perform_all (map engine_call ops) (cache c) in
     (calls,
      match r with
      | Done s => Done (mkCache s (applicationObserver c))
      | ContractViolation => ContractViolation
      end)) /\
  (forall c', (call_all ops c).2 = Done c' ->
     (call_all ops c).1 = map engine_call ops /\
     applicationObserver c' = applicationObserver c).
Proof.
  revert c. induction ops as [|o ops IH]; intros c.
  - split; [destruct c; reflexivity|]. simpl. intros c' [= <-]. auto.
  - simpl. rewrite call_op_eq.
    destruct (CK.perform (engine_call o) (cache c)) as [[x s]|].
    2:{ split; [reflexivity|]. simpl. discriminate. }
    destruct (IH (mkCache s (applicationObserver c))) as [IH1 IH2].
    rewrite IH1 in IH2 |- *. simpl in *.
    destruct (perform_all (map engine_call ops) s) as [more r].
    split; [reflexivity|]. simpl in *.
    intros c' Hc'. destruct (IH2 c' Hc') as [-> ->]. auto.
Qed.

End LifecycleFacts.

(** ** The further properties at concrete inputs *)

Lemma Qeq_bool_sym (x y : Q) : Qeq_bool x y = Qeq_bool y x.
Proof.
  destruct (Qeq_bool x y) eqn:Hxy, (Qeq_bool y x) eqn:Hyx; try reflexivity.
  - apply Qeq_bool_iff, Qeq_sym, Qeq_bool_iff in Hxy. congruence.
  - apply Qeq_bool_iff, Qeq_sym, Qeq_bool_iff in Hyx. congruence.
Qed.

Lemma Qeq_bool_trans (x y z : Q) :
  Qeq_bool x y = true -> Qeq_bool y z = true -> Qeq_bool x z = true.
Proof.
  rewrite !Qeq_bool_iff. apply Qeq_trans.
Qed.

Lemma Key_eq_symmetric_transitive_witness :
  Key_eq sampleK1 sampleK2 = Key_eq sampleK2 sampleK1 /\
  (Key_eq sampleK1 sampleK1 = true -> Key_eq sampleK1 sampleK1 = true ->
   Key_eq sampleK1 sampleK1 = true).
Proof.
  assert (Hsize_sym : forall a b : @CGSize sampleGraphics,
            CGSizeEqualToSize a b = CGSizeEqualToSize b a).
  { intros [a1 a2] [b1 b2]. simpl.
    now rewrite (Qeq_bool_sym a1), (Qeq_bool_sym a2). }
  assert (Hattr_sym : forall a b : @CKTextKitAttributes sampleAttributes,
            CKTextKitAttributes_eq a b = CKTextKitAttributes_eq b a).
  { intros a b. simpl. apply String.eqb_sym. }
  assert (Hsize_trans : forall a b c : @CGSize sampleGraphics,
            CGSizeEqualToSize a b = true -> CGSizeEqualToSize b c = true ->
            CGSizeEqualToSize a c = true).
  { intros [a1 a2] [b1 b2] [c1 c2]. simpl. rewrite !andb_true_iff.
    intros [H1 H2] [H3 H4]. split; eapply Qeq_bool_trans; eauto. }
  assert (Hattr_trans : forall a b c : @CKTextKitAttributes sampleAttributes,
            CKTextKitAttributes_eq a b = true ->
            CKTextKitAttributes_eq b c = true ->
            CKTextKitAttributes_eq a c = true).
  { intros a b c. simpl. rewrite !String.eqb_eq. congruence. }
  destruct (@Key_eq_symmetric_transitive sampleGraphics sampleAttributes
              Hsize_sym Hattr_sym Hsize_trans Hattr_trans) as [Hsym Htrans].
  split; [apply Hsym | apply Htrans].
Defined.

Lemma onEnterBackground_delegates_witness :
  alive 7%positive (sampleCacheAt 1%positive) twoCaches /\
  exists r,
    fire onEnterBackground 1%positive twoCaches =
      Some ([CK.CallRemoveAllObjects], r).
Proof.
  assert (Hlive : alive 7%positive (sampleCacheAt 1%positive) twoCaches)
    by (split; reflexivity).
  split; [exact Hlive|]. eexists.
  exact (onEnterBackground_delegates 7%positive (sampleCacheAt 1%positive)
           twoCaches Hlive).
Defined.

Lemma hooks_do_not_reach_other_caches_witness :
  let w' := mkProcess (localCenter twoCaches) (observers twoCaches)
              (<[7%positive := sampleCacheAt 1%positive]>
                 (caches twoCaches)) in
  (7%positive <> 8%positive /\
   alive 7%positive (sampleCacheAt 1%positive) twoCaches /\
   alive 8%positive (sampleCacheAt 2%positive) twoCaches /\
   fire (hook_member true) 1%positive twoCaches =
     Some ([CK.CallCompact (95 # 100)], Done w')) /\
  alive 8%positive (sampleCacheAt 2%positive) w'.
Proof.
  intros w'.
  assert (Hne : 7%positive <> 8%positive) by discriminate.
  assert (H1 : alive 7%positive (sampleCacheAt 1%positive) twoCaches)
    by (split; reflexivity).
  assert (H2 : alive 8%positive (sampleCacheAt 2%positive) twoCaches)
    by (split; reflexivity).
  assert (Hfire : fire (hook_member true)
                    (applicationObserver (sampleCacheAt 1%positive))
                    twoCaches =
                  Some ([CK.CallCompact (95 # 100)], Done w'))
    by reflexivity.
  split; [auto|].
  exact (proj1 (hooks_do_not_reach_other_caches true 7%positive 8%positive
                  (sampleCacheAt 1%positive) (sampleCacheAt 2%positive)
                  twoCaches w' _ Hne H1 H2 Hfire)).
Defined.

Lemma memory_warning_then_background_witness :
  let s : @CK.impl _ _ sampleEngine := CK.impl_create "renderers" 100 1 in
  (alive 7%positive (sampleCacheAt 1%positive) twoCaches /\
   CK.impl_compact (95 # 100) (cache (sampleCacheAt 1%positive)) =
     Done (tt, s) /\
   CK.impl_removeAllObjects s = Done (tt, s)) /\
  exists w1 w2,
    fire onLowMemory 1%positive twoCaches =
      Some ([CK.CallCompact (95 # 100)], Done w1) /\
    fire onEnterBackground 1%positive w1 =
      Some ([CK.CallRemoveAllObjects], Done w2).
Proof.
  intros s.
  assert (Hlive : alive 7%positive (sampleCacheAt 1%positive) twoCaches)
    by (split; reflexivity).
  assert (Hcompact :
            CK.impl_compact (95 # 100) (cache (sampleCacheAt 1%positive)) =
              Done (tt, s)) by reflexivity.
  assert (Hremove : CK.impl_removeAllObjects s = Done (tt, s))
    by reflexivity.
  split; [auto|].
  destruct (memory_warning_then_background 7%positive
              (sampleCacheAt 1%positive) twoCaches s s
              Hlive Hcompact Hremove) as (w1 & w2 & F1 & F2 & _).
  exists w1, w2. split; [exact F1 | exact F2].
Defined.

Lemma Cache_ctor_keeps_others_alive_witness :
  (8%positive <> 9%positive /\
   alive 8%positive (sampleCacheAt 2%positive) twoCaches) /\
  alive 8%positive (sampleCacheAt 2%positive)
    (Cache_ctor 9%positive "rasters" 5000 (1 # 2) twoCaches).
Proof.
  assert (Hne : 8%positive <> 9%positive) by discriminate.
  assert (Hlive : alive 8%positive (sampleCacheAt 2%positive) twoCaches)
    by (split; reflexivity).
  split; [auto|].
  exact (proj1 (Cache_ctor_keeps_others_alive 9%positive 8%positive
                  (sampleCacheAt 2%positive) "rasters" 5000 (1 # 2)
                  twoCaches Hne Hlive)).
Defined.

Lemma Cache_dtor_keeps_others_alive_witness :
  (8%positive <> 7%positive /\
   alive 7%positive (sampleCacheAt 1%positive) twoCaches /\
   alive 8%positive (sampleCacheAt 2%positive) twoCaches /\
   2%positive <> 1%positive) /\
  exists w',
    Cache_dtor 7%positive twoCaches = Some w' /\
    alive 8%positive (sampleCacheAt 2%positive) w' /\
    localCenter w' = localCenter twoCaches.
Proof.
  assert (Hne : 8%positive <> 7%positive) by discriminate.
  assert (H1 : alive 7%positive (sampleCacheAt 1%positive) twoCaches)
    by (split; reflexivity).
  assert (H2 : alive 8%positive (sampleCacheAt 2%positive) twoCaches)
    by (split; reflexivity).
  assert (Hown : 2%positive <> 1%positive) by discriminate.
  split; [auto|].
  destruct (Cache_dtor_keeps_others_alive 7%positive 8%positive
              (sampleCacheAt 1%positive) (sampleCacheAt 2%positive)
              twoCaches Hne H1 H2 Hown)
    as (w' & Hd & Hlive & _ & _ & Hcenter & _).
  exists w'. auto.
Defined.

Lemma churn_leaves_registrations_witness :
  caches twoCaches !! 9%positive = None /\
  exists w',
    churn 3 9%positive "rasters" 5000 (1 # 2) twoCaches = Some w' /\
    length (localCenter w') = 10%nat.
Proof.
  assert (Hfree : caches twoCaches !! 9%positive = None) by reflexivity.
  split; [exact Hfree|].
  destruct (churn_leaves_registrations 3 9%positive "rasters" 5000 (1 # 2)
              twoCaches Hfree) as (w' & Hc & _ & _ & _ & Hlen & _).
  exists w'. split; [exact Hc | exact Hlen].
Defined.

Lemma removal_body_undoes_registration_witness :
  let lowMem := mkClosure 9%positive (compact (95 # 100)) in
  let bg := mkClosure 9%positive removeAllObjects in
  (forall r, r ∈ localCenter twoCaches -> reg_observer r <> 3%positive) /\
  localCenter
    (ApplicationObserver_ctor0 3%positive
       (ApplicationObserver_ctor 3%positive lowMem bg twoCaches)) =
    localCenter twoCaches.
Proof.
  intros lowMem bg.
  assert (Hnone : forall r, r ∈ localCenter twoCaches ->
                            reg_observer r <> 3%positive).
  { intros r Hr. apply list_elem_of_In in Hr. simpl in Hr.
    destruct Hr as [<- | [<- | [<- | [<- | []]]]]; discriminate. }
  split; [exact Hnone|].
  exact (proj1 (removal_body_undoes_registration 3%positive lowMem bg
                  twoCaches Hnone)).
Defined.
